(** * JobSlave: the application automation core (Naukri scraper and
      JobScraperManager) as a shallow embedding.

    The TypeScript sources are
    - [NaukriScraper] (searchJobs, applyToJob, getScreeningQuestions,
      fillScreeningAnswer, submitApplication), on top of [BaseScraper],
    - [JobScraperManager] (applyToJob, processJobQueue, stop),
    - the shared types [ScraperState] and [ApplyResult].

    Browser and LLM calls are awaited asynchronous calls whose results depend
    on a live page; they are read from an environment of outcomes (a value or
    a thrown exception).  The event callbacks of the caller (onLog,
    onApplicationStart, ...) are fire-and-forget and are recorded in a trace.
    Delays have no observable effect apart from the points where a concurrent
    [stop()] can run. *)

From Stdlib Require Import String List Arith Bool Lia ZArith Ascii.
Import ListNotations.
Open Scope string_scope.
Open Scope nat_scope.

(** ** Shared data *)

Record Job := mkJob {
  job_id : string;
  externalId : string;
  title : string;
  company : string;
  description : string;
  jobUrl : string
}.

(** [ScreeningQuestion.type] *)
Inductive QuestionType :=
| QText | QNumber | QSelect | QRadio | QCheckbox | QMultiselect.

(** [ScreeningQuestion]; the id is the string ["q-" ++ index], kept as the
    index. *)
Record ScreeningQuestion := mkQuestion {
  sq_id : nat;
  sq_question : string;
  sq_type : QuestionType;
  sq_options : option (list string);
  sq_required : bool;
  sq_answer : option string
}.

(** [ApplyResult]: optional fields are [option]s ([undefined] is [None]). *)
Record ApplyResult := mkResult {
  success : bool;
  alreadyApplied : option bool;
  error : option string;
  screeningQuestions : option (list ScreeningQuestion)
}.

(** ** getScreeningQuestions: the DOM side

    One question container as [getScreeningQuestions] reads it:
    the trimmed text of its label element ([""] when there is none), its
    [select] element with the (value, text) pairs of its options, its radio
    and checkbox inputs as (id, value) pairs, whether it holds a number input
    and a required marker, and the trimmed text of [label[for=id]]. *)
Record Container := mkContainer {
  c_label : string;
  c_select : option (list (string * string));
  c_radios : list (string * string);
  c_checkboxes : list (string * string);
  c_number : bool;
  c_required : bool;
  c_label_for : string -> option string
}.

(** [radioLabel?.textContent?.trim() || radio.value] *)
Definition label_or_value (c : Container) (iv : string * string) : string :=
  match c_label_for c (fst iv) with
  | Some t => if String.eqb t "" then snd iv else t
  | None => snd iv
  end.

(** The type assignments of the container callback, in source order: every
    check that fires overwrites [type]. *)
Definition container_type (c : Container) : QuestionType :=
  let type := QText in
  let type := match c_select c with Some _ => QSelect | None => type end in
  let type := if 0 <? List.length (c_radios c) then QRadio else type in
  let type :=
    if 1 <? List.length (c_checkboxes c) then QMultiselect
    else if List.length (c_checkboxes c) =? 1 then QCheckbox else type in
  if c_number c then QNumber else type.

(** The [options] array of the callback, pushed to in source order. *)
Definition container_options (c : Container) : list string :=
  let options :=
    match c_select c with
    | Some opts =>
        map snd (filter (fun vt => negb (String.eqb (fst vt) "")) opts)
    | None => []
    end in
  let options :=
    if 0 <? List.length (c_radios c)
    then (options ++ map (label_or_value c) (c_radios c))%list else options in
  if 1 <? List.length (c_checkboxes c)
  then (options ++ map (label_or_value c) (c_checkboxes c))%list else options.

(** The body of [questionContainers.forEach((container, index) => ...)]. *)
Definition question_of_container (index : nat) (c : Container)
  : option ScreeningQuestion :=
  if String.eqb (c_label c) "" then None
  else
    let options := container_options c in
    Some (mkQuestion index (c_label c) (container_type c)
            (match options with [] => None | _ => Some options end)
            (c_required c) None).

Fixpoint questions_from (index : nat) (cs : list Container)
  : list ScreeningQuestion :=
  match cs with
  | [] => []
  | c :: cs' =>
      match question_of_container index c with
      | Some q => q :: questions_from (S index) cs'
      | None => questions_from (S index) cs'
      end
  end.

(** The page function of [getScreeningQuestions], over the containers in
    DOM order. *)
Definition getScreeningQuestions_dom (cs : list Container)
  : list ScreeningQuestion :=
  questions_from 0 cs.

(** The precedence as the specification words it: the first rule of the
    list select > radio > multiselect > checkbox > number > text that
    applies. *)
Definition spec_priority_type (c : Container) : QuestionType :=
  match c_select c with
  | Some _ => QSelect
  | None =>
      if 0 <? List.length (c_radios c) then QRadio
      else if 1 <? List.length (c_checkboxes c) then QMultiselect
      else if List.length (c_checkboxes c) =? 1 then QCheckbox
      else if c_number c then QNumber
      else QText
  end.

(** The precedence the source realises: the last assignment wins, so the
    priority list is number > multiselect > checkbox > radio > select > text. *)
Definition last_rule_priority_type (c : Container) : QuestionType :=
  if c_number c then QNumber
  else if 1 <? List.length (c_checkboxes c) then QMultiselect
  else if List.length (c_checkboxes c) =? 1 then QCheckbox
  else if 0 <? List.length (c_radios c) then QRadio
  else match c_select c with Some _ => QSelect | None => QText end.

(** ** The effect model

    An awaited call either yields a value or throws. *)
Inductive Outcome (A : Type) :=
| Ok (a : A)
| Exn (msg : string).
Arguments Ok {A} a.
Arguments Exn {A} msg.

Inductive LogLevel := LInfo | LWarn | LError.

(** Browser interactions (A...) and event-sink callbacks (Ev...), in the
    order they happen. *)
Inductive Act :=
| AGoto                      (* page.goto(job.jobUrl) *)
| AEvalAlreadyApplied        (* evaluate the already-applied marker *)
| AApplyButton               (* waitForSelector + click of the apply button *)
| AApplyButtonFallback       (* text scan of buttons/links for "apply" *)
| AEvalHasQuestions          (* hasScreeningQuestions *)
| AEvalQuestions             (* getScreeningQuestions' page.evaluate *)
| AEvalSuccess               (* checkApplicationSuccess *)
| AFill (id : nat) (answer : string)
| ASubmit                    (* submitApplication *)
| AResolve (id : nat)        (* screeningService.answerQuestion *)
| ASearchGoto | AWaitListings | AExtractListings | AEvalCount
| EvLog (lvl : LogLevel)
| EvApplicationStart (j : Job)
| EvApplicationComplete (j : Job) (ok : bool)
| EvError (j : option Job)
| EvScreeningQuestion (id : nat) (answer : string)
| EvQueueProgress (current total : nat)
| EvProgress (index : nat)   (* the caller's onProgress *)
| EvDelay (ms : nat)
| EvSessionComplete (applied failed : nat).

(** [ScraperState] *)
Record ScraperState := mkScraperState {
  isLoggedIn : bool;
  s_isRunning : bool;
  currentJob : option Job;
  appliedCount : nat;
  failedCount : nat
}.

Definition set_currentJob (j : option Job) (s : ScraperState) : ScraperState :=
  mkScraperState (isLoggedIn s) (s_isRunning s) j (appliedCount s) (failedCount s).
Definition incr_appliedCount (s : ScraperState) : ScraperState :=
  mkScraperState (isLoggedIn s) (s_isRunning s) (currentJob s)
    (S (appliedCount s)) (failedCount s).
Definition incr_failedCount (s : ScraperState) : ScraperState :=
  mkScraperState (isLoggedIn s) (s_isRunning s) (currentJob s)
    (appliedCount s) (S (failedCount s)).

(** The candidate profile; only its presence matters to the core. *)
Record UserProfile := mkProfile { profile_name : string }.

(** The heap the core works on: the Naukri scraper ([this.page] set or
    not, [this.state]), the manager's fields and config, and the trace.
    [ws_calls] is a ghost: the jobs passed to the manager's applyToJob so
    far; its length identifies the attempt to the environment. *)
Record World := mkWorld {
  ws_page : bool;
  ws_state : ScraperState;
  ws_profile : option UserProfile;
  ws_isRunning : bool;
  ws_shouldStop : bool;
  ws_maxApplications : nat;
  ws_delayBetween : nat;
  ws_calls : list Job;
  ws_trace : list Act
}.

Definition upd_state (f : ScraperState -> ScraperState) (w : World) : World :=
  mkWorld (ws_page w) (f (ws_state w)) (ws_profile w) (ws_isRunning w)
    (ws_shouldStop w) (ws_maxApplications w) (ws_delayBetween w)
    (ws_calls w) (ws_trace w).
Definition upd_trace (a : Act) (w : World) : World :=
  mkWorld (ws_page w) (ws_state w) (ws_profile w) (ws_isRunning w)
    (ws_shouldStop w) (ws_maxApplications w) (ws_delayBetween w)
    (ws_calls w) (ws_trace w ++ [a]).
Definition set_isRunning (b : bool) (w : World) : World :=
  mkWorld (ws_page w) (ws_state w) (ws_profile w) b
    (ws_shouldStop w) (ws_maxApplications w) (ws_delayBetween w)
    (ws_calls w) (ws_trace w).
Definition set_shouldStop (b : bool) (w : World) : World :=
  mkWorld (ws_page w) (ws_state w) (ws_profile w) (ws_isRunning w)
    b (ws_maxApplications w) (ws_delayBetween w)
    (ws_calls w) (ws_trace w).
Definition record_call (j : Job) (w : World) : World :=
  mkWorld (ws_page w) (ws_state w) (ws_profile w) (ws_isRunning w)
    (ws_shouldStop w) (ws_maxApplications w) (ws_delayBetween w)
    (ws_calls w ++ [j]) (ws_trace w).

(** What the live page and the LLM answer during one apply attempt. *)
Record AttemptEnv := mkAttemptEnv {
  x_url_has_id : bool;                    (* page.url().includes(externalId) *)
  x_goto : Outcome unit;
  x_already : Outcome bool;
  x_apply_click : Outcome unit;
  x_apply_fallback : Outcome bool;
  x_has_questions : Outcome bool;
  x_question_dom : Outcome (list Container);
  x_success : Outcome bool;
  x_resolve : nat -> Outcome string;      (* answerQuestion, by question id *)
  x_fill : nat -> Outcome unit;           (* fillScreeningAnswer's evaluate *)
  x_submit : bool                         (* submitApplication's try block;
                                             its catch returns false *)
}.

(** What the page answers during searchJobs. *)
Record SearchEnv := mkSearchEnv {
  s_goto : Outcome unit;
  s_listings : Outcome unit;              (* waitForSelector, 10 s *)
  s_jobs : Outcome (list Job);            (* extractJobListings *)
  s_count : Outcome Z                     (* parsed total count, 0 if none *)
}.

(** The environment: per attempt number, the page; per queue iteration,
    whether a concurrent [stop()] runs while the attempt is awaited or while
    the inter-application delay is awaited. *)
Record Env := mkEnv {
  e_attempt : nat -> AttemptEnv;
  e_stop_in_attempt : nat -> bool;
  e_stop_in_delay : nat -> bool;
  e_search : SearchEnv
}.

Definition M (A : Type) : Type := Env -> World -> Outcome A * World.

Definition ret {A} (a : A) : M A := fun _ w => (Ok a, w).
Definition bind {A B} (m : M A) (k : A -> M B) : M B :=
  fun e w =>
    match m e w with
    | (Ok a, w') => k a e w'
    | (Exn s, w') => (Exn s, w')
    end.
Definition throw {A} (msg : string) : M A := fun _ w => (Exn msg, w).
Definition lift {A} (o : Outcome A) : M A := fun _ w => (o, w).
Definition get : M World := fun _ w => (Ok w, w).
Definition modify (f : World -> World) : M unit := fun _ w => (Ok tt, f w).
Definition ask : M Env := fun e w => (Ok e, w).
Definition emit (a : Act) : M unit := modify (upd_trace a).

(** [try { m } catch (err) { h(err) }] *)
Definition catch {A} (m : M A) (h : string -> M A) : M A :=
  fun e w =>
    match m e w with
    | (Ok a, w') => (Ok a, w')
    | (Exn s, w') => h s e w'
    end.

(** [try { m } finally { fin }] where the finally block only writes state. *)
Definition try_finally {A} (m : M A) (fin : World -> World) : M A :=
  fun e w => let (o, w') := m e w in (o, fin w').

Declare Scope monad_scope.
Notation "x <- m ;; k" := (bind m (fun x => k))
  (at level 61, m at next level, right associativity) : monad_scope.
Notation "m ;; k" := (bind m (fun _ => k))
  (at level 61, right associativity) : monad_scope.
Open Scope monad_scope.

(** The page of the current attempt. *)
Definition attempt_env : M AttemptEnv :=
  fun e w => (Ok (e_attempt e (List.length (ws_calls w))), w).

(** [BaseScraper.log] reaches the caller through [onLog]. *)
Definition log (lvl : LogLevel) : M unit := emit (EvLog lvl).

(** ** NaukriScraper *)

Definition browser_not_initialized : string := "Browser not initialized".

(** [if (!this.page) throw new Error('Browser not initialized')] *)
Definition require_page : M unit :=
  w <- get;;
  if ws_page w then ret tt else throw browser_not_initialized.

(** [getScreeningQuestions()] on the page of the attempt. *)
Definition getScreeningQuestions (x : AttemptEnv) : M (list ScreeningQuestion) :=
  require_page;;
  emit AEvalQuestions;;
  cs <- lift (x_question_dom x);;
  ret (getScreeningQuestions_dom cs).

(** [fillScreeningAnswer(questionId, answer)] *)
Definition fillScreeningAnswer (x : AttemptEnv) (questionId : nat)
    (answer : string) : M unit :=
  require_page;;
  emit (AFill questionId answer);;
  lift (x_fill x questionId);;
  emit (EvScreeningQuestion questionId answer).

(** [submitApplication()]: the selector loop and the success check sit in a
    try block whose catch returns false, so only its result is observable. *)
Definition submitApplication (x : AttemptEnv) : M bool :=
  require_page;;
  emit ASubmit;;
  ret (x_submit x).

Definition screening_error : string := "Screening questions require answers".
Definition button_error : string := "Apply button not found".
Definition unclear_error : string := "Application submission unclear".

(** [NaukriScraper.applyToJob(job)] *)
Definition naukri_applyToJob (job : Job) : M ApplyResult :=
  require_page;;
  modify (upd_state (set_currentJob (Some job)));;
  emit (EvApplicationStart job);;
  try_finally
    (catch
       (x <- attempt_env;;
        (if x_url_has_id x then ret tt else emit AGoto;; lift (x_goto x));;
        emit AEvalAlreadyApplied;;
        alreadyApplied <- lift (x_already x);;
        if alreadyApplied then
          log LInfo;;
          ret (mkResult false (Some true) None None)
        else
          clicked <- catch
                       (emit AApplyButton;; lift (x_apply_click x);;
                        log LInfo;; ret true)
                       (fun _ => emit AApplyButtonFallback;;
                                 lift (x_apply_fallback x));;
          if negb clicked then
            ret (mkResult false None (Some button_error) None)
          else
            emit AEvalHasQuestions;;
            hasQuestions <- lift (x_has_questions x);;
            if hasQuestions then
              questions <- getScreeningQuestions x;;
              log LInfo;;
              ret (mkResult false None (Some screening_error) (Some questions))
            else
              emit AEvalSuccess;;
              ok <- lift (x_success x);;
              if ok then
                modify (upd_state incr_appliedCount);;
                emit (EvApplicationComplete job true);;
                log LInfo;;
                ret (mkResult true None None None)
              else
                ret (mkResult false None (Some unclear_error) None))
       (fun err =>
          modify (upd_state incr_failedCount);;
          emit (EvApplicationComplete job false);;
          emit (EvError (Some job));;
          ret (mkResult false None (Some err) None)))
    (upd_state (set_currentJob None)).

(** [JobSearchParams], the fields that reach the result. *)
Record JobSearchParams := mkSearchParams {
  keywords : list string;
  locations : list string;
  params_page : option Z
}.

(** [JobSearchResult] *)
Record JobSearchResult := mkSearchResult {
  jobs : list Job;
  totalCount : Z;
  page : Z;
  hasMore : bool
}.

(** [params.page || 1]: [undefined] and [0] are falsy. *)
Definition page_or_1 (p : option Z) : Z :=
  match p with
  | Some z => if Z.eqb z 0 then 1%Z else z
  | None => 1%Z
  end.

(** [NaukriScraper.searchJobs(params)] *)
Definition naukri_searchJobs (params : JobSearchParams) : M JobSearchResult :=
  require_page;;
  log LInfo;;
  e <- ask;;
  let se := e_search e in
  emit ASearchGoto;;
  lift (s_goto se);;
  emit AWaitListings;;
  found <- catch (lift (s_listings se);; ret true)
                 (fun _ => log LWarn;; ret false);;
  if negb found then
    ret (mkSearchResult [] 0 (page_or_1 (params_page params)) false)
  else
    emit AExtractListings;;
    jobs <- lift (s_jobs se);;
    emit AEvalCount;;
    totalCount <- lift (s_count se);;
    let currentPage := page_or_1 (params_page params) in
    let hasMore := (0 <? List.length jobs) && (currentPage * 20 <? totalCount)%Z in
    log LInfo;;
    ret (mkSearchResult jobs totalCount currentPage hasMore).

(** ** JobScraperManager *)

Definition profile_error : string := "Profile not set. Call setProfile() first.".

(** [answer = answerResponse.answer] on the question record. *)
Definition set_answer (q : ScreeningQuestion) (a : string) : ScreeningQuestion :=
  mkQuestion (sq_id q) (sq_question q) (sq_type q) (sq_options q)
    (sq_required q) (Some a).

(** The [for (const question of result.screeningQuestions)] loop.  The
    question records are mutated in place and the same array is returned
    in the new result; no other reference to them exists, so the loop is
    modelled as returning the updated list. *)
Fixpoint answer_questions (x : AttemptEnv) (qs : list ScreeningQuestion)
  : M (list ScreeningQuestion) :=
  match qs with
  | [] => ret []
  | question :: rest =>
      q' <- catch
              (emit (AResolve (sq_id question));;
               answer <- lift (x_resolve x (sq_id question));;
               emit (EvLog LInfo);;
               emit (EvLog LInfo);;
               fillScreeningAnswer x (sq_id question) answer;;
               ret (set_answer question answer))
              (fun _ => emit (EvLog LError);; ret question);;
      rest' <- answer_questions x rest;;
      ret (q' :: rest')
  end.

(** [!result.success && result.screeningQuestions &&
     result.screeningQuestions.length > 0] *)
Definition has_pending_questions (r : ApplyResult) : bool :=
  negb (success r) &&
  match screeningQuestions r with Some (_ :: _) => true | _ => false end.

(** The screening branch: answer the questions, then submit. *)
Definition answer_and_submit (x : AttemptEnv) (qs : list ScreeningQuestion)
  : M ApplyResult :=
  emit (EvLog LInfo);;
  answered <- answer_questions x qs;;
  submitSuccess <- submitApplication x;;
  ret (mkResult submitSuccess None None (Some answered)).

(** [JobScraperManager.applyToJob(source, job)]; the only registered
    scraper is ['naukri']. *)
Definition mgr_applyToJob (source : string) (job : Job) : M ApplyResult :=
  modify (record_call job);;
  w <- get;;
  match ws_profile w with
  | None => throw profile_error
  | Some _ =>
      if negb (String.eqb source "naukri")
      then throw ("Unknown source: " ++ source)
      else
        x <- attempt_env;;
        result <- naukri_applyToJob job;;
        if has_pending_questions result then
          answer_and_submit x
            (match screeningQuestions result with
             | Some qs => qs | None => [] end)
        else ret result
  end.

(** [stop()] *)
Definition stop : M unit :=
  modify (set_shouldStop true);;
  emit (EvLog LInfo).

(** A [stop()] from another task of the event loop, when the environment
    says one runs at this suspension point. *)
Definition external_stop (b : bool) : M unit :=
  if b then stop else ret tt.

Record QueueResult := mkQueueResult {
  applied : nat;
  failed : nat;
  skipped : nat
}.

(** The classification of a returned result. *)
Definition classify (result : ApplyResult) (r : QueueResult) : QueueResult :=
  if success result then mkQueueResult (S (applied r)) (failed r) (skipped r)
  else match alreadyApplied result with
       | Some true => mkQueueResult (applied r) (failed r) (S (skipped r))
       | _ => mkQueueResult (applied r) (S (failed r)) (skipped r)
       end.

Definition count_failed (r : QueueResult) : QueueResult :=
  mkQueueResult (applied r) (S (failed r)) (skipped r).

(** A placeholder for [jobs[i]] out of range; the loop never reads one. *)
Definition undefined_job : Job := mkJob "" "" "" "" "" "".

(** [for (let i = 0; i < maxApplications && !this.shouldStop; i++) { ... }],
    with [fuel] bounding the iterations ([maxApplications] of them). *)
Fixpoint queue_loop (source : string) (jobs : list Job)
    (maxApplications fuel i : nat) (r : QueueResult) : M QueueResult :=
  match fuel with
  | O => ret r
  | S fuel' =>
      w <- get;;
      if (i <? maxApplications) && negb (ws_shouldStop w) then
        let job := nth i jobs undefined_job in
        emit (EvQueueProgress (i + 1) maxApplications);;
        r' <- catch
                (result <- mgr_applyToJob source job;;
                 let r' := classify result r in
                 emit (EvProgress i);;
                 ret r')
                (fun _ => emit (EvError (Some job));; ret (count_failed r));;
        e <- ask;;
        external_stop (e_stop_in_attempt e i);;
        w' <- get;;
        (if (i + 1 <? maxApplications) && negb (ws_shouldStop w') then
           emit (EvDelay (ws_delayBetween w'));;
           external_stop (e_stop_in_delay e i)
         else ret tt);;
        queue_loop source jobs maxApplications fuel' (S i) r'
      else ret r
  end.

(** [JobScraperManager.processJobQueue(source, jobs, onProgress)] *)
Definition processJobQueue (source : string) (jobs : list Job)
  : M QueueResult :=
  modify (set_isRunning true);;
  modify (set_shouldStop false);;
  w <- get;;
  let maxApplications := Nat.min (List.length jobs) (ws_maxApplications w) in
  r <- queue_loop source jobs maxApplications maxApplications 0
         (mkQueueResult 0 0 0);;
  modify (set_isRunning false);;
  emit (EvSessionComplete (applied r) (failed r));;
  ret r.

(** ** Auxiliary notions for the statements *)

(** The manager's fields, the page and the ghost call list are untouched. *)
Definition same_frame (w w' : World) : Prop :=
  ws_page w' = ws_page w /\ ws_profile w' = ws_profile w /\
  ws_isRunning w' = ws_isRunning w /\ ws_shouldStop w' = ws_shouldStop w /\
  ws_maxApplications w' = ws_maxApplications w /\
  ws_delayBetween w' = ws_delayBetween w /\ ws_calls w' = ws_calls w.

(** What the question loop should leave in one question record: the
    resolver's answer when both the resolver and the fill went through,
    the record unchanged otherwise. *)
Definition expected_answer (x : AttemptEnv) (q : ScreeningQuestion)
  : ScreeningQuestion :=
  match x_resolve x (sq_id q) with
  | Ok a => match x_fill x (sq_id q) with
            | Ok _ => set_answer q a
            | Exn _ => q
            end
  | Exn _ => q
  end.

(** The interactions of one question: the resolver call, then either the
    logged failure, or the Q/A log lines and the fill (whose own failure is
    logged too). *)
Definition expected_question_steps (x : AttemptEnv) (q : ScreeningQuestion)
  : list Act :=
  AResolve (sq_id q) ::
  match x_resolve x (sq_id q) with
  | Exn _ => [EvLog LError]
  | Ok a =>
      [EvLog LInfo; EvLog LInfo; AFill (sq_id q) a] ++
      match x_fill x (sq_id q) with
      | Ok _ => [EvScreeningQuestion (sq_id q) a]
      | Exn _ => [EvLog LError]
      end
  end%list.

(** The four result shapes the scraper's applyToJob builds. *)
Definition scraper_result_shape (r : ApplyResult) : Prop :=
  r = mkResult true None None None \/
  r = mkResult false (Some true) None None \/
  (exists msg, r = mkResult false None (Some msg) None) \/
  (exists qs, r = mkResult false None (Some screening_error) (Some qs)).

(** How many jobs the queue loop starts from index [i], given the
    environment's [stop()] calls: every index below [maxApplications] is
    attempted until the first one during whose attempt or following delay
    [stop()] runs; that one is the last. *)
Fixpoint attempts_from (e : Env) (maxApplications fuel i : nat) : nat :=
  match fuel with
  | O => O
  | S fuel' =>
      if i <? maxApplications then
        if e_stop_in_attempt e i || e_stop_in_delay e i then 1
        else S (attempts_from e maxApplications fuel' (S i))
      else O
  end.

(** The sum of the three counts. *)
Definition total (r : QueueResult) : nat := applied r + failed r + skipped r.

(** The jobs [jobs[i]], ..., [jobs[i+k-1]], in order. *)
Definition jobs_slice (jobs : list Job) (i k : nat) : list Job :=
  map (fun j => nth j jobs undefined_job) (seq i k).

(** What one attempt adds to the counts: [classify] for a returned result,
    one more [failed] for a thrown exception. *)
Definition count_attempt (r : QueueResult) (o : Outcome ApplyResult)
  : QueueResult :=
  match o with
  | Ok result => classify result r
  | Exn _ => count_failed r
  end.

(** The event the loop body emits after an attempt: [onProgress] for a
    returned result, [onError] for a thrown exception. *)
Definition after_attempt (i : nat) (job : Job) (o : Outcome ApplyResult)
    (w : World) : World :=
  match o with
  | Ok _ => upd_trace (EvProgress i) w
  | Exn _ => upd_trace (EvError (Some job)) w
  end.

(** [steps] are the attempts of an unstopped loop from index [i] on, each
    as (world before the call, outcome of the call, world after it): the
    [i]-th runs [applyToJob] on [jobs[i]] from the world the previous
    attempt, its event and the delay left, after [onQueueProgress]. *)
Fixpoint attempts_chain (source : string) (jobs : list Job) (e : Env)
    (maxApplications i : nat) (w : World)
    (steps : list (World * Outcome ApplyResult * World)) : Prop :=
  match steps with
  | [] => True
  | (w0, o, w1) :: rest =>
      let job := nth i jobs undefined_job in
      w0 = upd_trace (EvQueueProgress (i + 1) maxApplications) w /\
      mgr_applyToJob source job e w0 = (o, w1) /\
      attempts_chain source jobs e maxApplications (S i)
        (upd_trace (EvDelay (ws_delayBetween w1)) (after_attempt i job o w1))
        rest
  end.

Definition step_outcome (s : World * Outcome ApplyResult * World)
  : Outcome ApplyResult :=
  snd (fst s).

(** ** Sample inputs *)

Definition job1 : Job :=
  mkJob "naukri-1" "1" "Engineer" "Acme" "" "https://www.naukri.com/job-1".
Definition job2 : Job :=
  mkJob "naukri-2" "2" "Developer" "Initech" "" "https://www.naukri.com/job-2".
Definition job3 : Job :=
  mkJob "naukri-3" "3" "Analyst" "Globex" "" "https://www.naukri.com/job-3".

Definition session0 : ScraperState := mkScraperState true false None 0 0.

(** A logged-in scraper, a profile, the default config with no delay. *)
Definition world0 : World :=
  mkWorld true session0 (Some (mkProfile "candidate")) false false 50 0 [] [].

(** A job page where the apply button is there, no questions appear and
    the success marker shows. *)
Definition page_applies : AttemptEnv :=
  mkAttemptEnv true (Ok tt) (Ok false) (Ok tt) (Ok true) (Ok false) (Ok [])
    (Ok true) (fun _ => Ok "yes") (fun _ => Ok tt) true.

Definition search_empty : SearchEnv :=
  mkSearchEnv (Ok tt) (Exn "Timeout") (Ok []) (Ok 0%Z).

Definition env_all_apply : Env :=
  mkEnv (fun _ => page_applies) (fun _ => false) (fun _ => false) search_empty.

(** A question container with a select element and a radio input. *)
Definition container_select_radio : Container :=
  mkContainer "Notice period" (Some [("30", "30 days")]) [("r1", "Immediate")]
    [] false true (fun _ => None).

(** The apply button is missing: the primary selector times out and the
    text scan finds nothing. *)
Definition page_no_button : AttemptEnv :=
  mkAttemptEnv true (Ok tt) (Ok false) (Exn "TimeoutError") (Ok false)
    (Ok false) (Ok []) (Ok false) (fun _ => Ok "yes") (fun _ => Ok tt) false.

(** The application form shows one screening question; the resolver
    answers it and the submission succeeds. *)
Definition page_questions : AttemptEnv :=
  mkAttemptEnv true (Ok tt) (Ok false) (Ok tt) (Ok true) (Ok true)
    (Ok [container_select_radio]) (Ok false) (fun _ => Ok "Immediate")
    (fun _ => Ok tt) true.

(** The job page already shows the applied marker. *)
Definition page_already : AttemptEnv :=
  mkAttemptEnv false (Ok tt) (Ok true) (Ok tt) (Ok true) (Ok false) (Ok [])
    (Ok true) (fun _ => Ok "yes") (fun _ => Ok tt) true.

Definition env_of (x : AttemptEnv) : Env :=
  mkEnv (fun _ => x) (fun _ => false) (fun _ => false) search_empty.

(** A second question asking for a number. *)
Definition container_years : Container :=
  mkContainer "Years of experience" None [] [] true true (fun _ => None).

(** Scenario C of the specification: two questions, the resolver throws for
    the first and answers the second; the submission succeeds. *)
Definition page_resolver_fails_first : AttemptEnv :=
  mkAttemptEnv true (Ok tt) (Ok false) (Ok tt) (Ok true) (Ok true)
    (Ok [container_select_radio; container_years]) (Ok false)
    (fun id => if Nat.eqb id 0 then Exn "LLM request failed" else Ok "5")
    (fun _ => Ok tt) true.

(** [stop()] runs during the delay after the first job. *)
Definition env_stop_after_first : Env :=
  mkEnv (fun _ => page_applies) (fun _ => false) (fun i => Nat.eqb i 0)
    search_empty.

(** A manager without a profile. *)
Definition world_no_profile : World :=
  mkWorld true session0 None false false 50 0 [] [].

(** ** Strings as the sources handle them

    Strings are ASCII here: JavaScript's [toLowerCase], [trim] and [\s] act
    on the ASCII letters and white space as below. *)

(** [\s] on ASCII: space, tab, line feed, vertical tab, form feed, carriage
    return. *)
Definition is_js_space (c : ascii) : bool :=
  let n := nat_of_ascii c in (n =? 32) || ((9 <=? n) && (n <=? 13)).

Definition lower_char (c : ascii) : ascii :=
  let n := nat_of_ascii c in
  if (65 <=? n) && (n <=? 90) then ascii_of_nat (n + 32) else c.

(** [s.toLowerCase()] *)
Fixpoint toLowerCase (s : string) : string :=
  match s with
  | EmptyString => EmptyString
  | String c s' => String (lower_char c) (toLowerCase s')
  end.

(** [s.includes(pat)] *)
Fixpoint includes (s pat : string) : bool :=
  String.prefix pat s ||
  match s with
  | EmptyString => false
  | String _ s' => includes s' pat
  end.

(** [s.startsWith(pat)] *)
Definition startsWith (s pat : string) : bool := String.prefix pat s.

Fixpoint drop_spaces (l : list ascii) : list ascii :=
  match l with
  | [] => []
  | c :: l' => if is_js_space c then drop_spaces l' else l
  end.

(** [s.trim()] *)
Definition trim (s : string) : string :=
  string_of_list_ascii
    (rev (drop_spaces (rev (drop_spaces (list_ascii_of_string s))))).

(** [xs.join(sep)] *)
Fixpoint join (sep : string) (xs : list string) : string :=
  match xs with
  | [] => ""
  | [x] => x
  | x :: xs' => x ++ sep ++ join sep xs'
  end.

(** [s.replace(/\s+/g, '-')]: every maximal run of white space becomes one
    dash; [in_run] says whether the previous character was white space. *)
Fixpoint dash_runs (in_run : bool) (l : list ascii) : list ascii :=
  match l with
  | [] => []
  | c :: l' =>
      if is_js_space c
      then if in_run then dash_runs true l' else "-"%char :: dash_runs true l'
      else c :: dash_runs false l'
  end.

Definition replace_spaces_dash (s : string) : string :=
  string_of_list_ascii (dash_runs false (list_ascii_of_string s)).

(** Decimal digits of a natural number, as a template literal prints an
    integer. *)
Definition digit_char (d : nat) : ascii := ascii_of_nat (48 + d).

Fixpoint dec_digits (fuel n : nat) : list ascii :=
  match fuel with
  | O => []
  | S fuel' =>
      if n <? 10 then [digit_char n]
      else (dec_digits fuel' (n / 10) ++ [digit_char (n mod 10)])%list
  end.

Definition nat_to_dec (n : nat) : string :=
  string_of_list_ascii (dec_digits (S n) n).

(** [`${z}`] for an integer [z] (below 10^21 in magnitude, where JavaScript
    prints plain decimal digits). *)
Definition z_to_dec (z : Z) : string :=
  if (z <? 0)%Z then "-" ++ nat_to_dec (Z.to_nat (- z))
  else nat_to_dec (Z.to_nat z).

(** ** Shared utilities ([packages/shared/src/utils]) *)

(** The end index of [s.slice(0, e)] for a string of length [len]: a
    negative [e] counts from the end. *)
Definition slice_end (len : nat) (e : Z) : nat :=
  if (e <? 0)%Z then Z.to_nat (Z.max (Z.of_nat len + e) 0)
  else Nat.min (Z.to_nat e) len.

(** [truncate(str, maxLength)], for an integer [maxLength]. *)
Definition truncate (str : string) (maxLength : Z) : string :=
  if (Z.of_nat (String.length str) <=? maxLength)%Z then str
  else substring 0 (slice_end (String.length str) (maxLength - 3)) str ++ "...".

(** A JavaScript value read from an object literal: the literal's own
    string values, [undefined], or what [Object.prototype] provides. *)
Inductive JSValue :=
| JSString (s : string)
| JSUndefined
| JSFunction (name : string)
| JSObject.

(** Names an object literal inherits from [Object.prototype]. *)
Definition object_prototype_function_names : list string :=
  ["constructor"; "__defineGetter__"; "__defineSetter__"; "hasOwnProperty";
   "__lookupGetter__"; "__lookupSetter__"; "isPrototypeOf";
   "propertyIsEnumerable"; "toString"; "valueOf"; "toLocaleString"].

(** [obj[key]] on an object literal with the given own string entries. *)
Definition literal_lookup (own : list (string * string)) (key : string)
  : JSValue :=
  match find (fun kv => String.eqb (fst kv) key) own with
  | Some kv => JSString (snd kv)
  | None =>
      if existsb (String.eqb key) object_prototype_function_names
      then JSFunction key
      else if String.eqb key "__proto__" then JSObject
      else JSUndefined
  end.

(** [v || fallback] *)
Definition js_or (v : JSValue) (fallback : JSValue) : JSValue :=
  match v with
  | JSString "" | JSUndefined => fallback
  | _ => v
  end.

Definition notice_period_map : list (string * string) :=
  [("immediate", "Immediate"); ("15_days", "15 Days");
   ("30_days", "30 Days (1 Month)"); ("60_days", "60 Days (2 Months)");
   ("90_days", "90 Days (3 Months)"); ("more_than_90_days", "More than 90 Days")].

(** [noticePeriodToText(period)] *)
Definition noticePeriodToText (period : string) : JSValue :=
  js_or (literal_lookup notice_period_map period) (JSString period).


(** ** NaukriScraper.buildSearchUrl *)

Definition naukri_baseUrl : string := "https://www.naukri.com".

(** The fields of [JobSearchParams] that only the URL reads:
    [experienceMin], [salaryMin] (integers here) and [postedWithin]. *)
Record SearchFilters := mkFilters {
  experienceMin : option Z;
  salaryMin : option Z;
  postedWithin : option string
}.

(** [`${v}`] for a value read from an object literal. *)
Definition js_to_string (v : JSValue) : string :=
  match v with
  | JSString s => s
  | JSUndefined => "undefined"
  | JSFunction name => "function " ++ name ++ "() { [native code] }"
  | JSObject => "[object Object]"
  end.

Definition days_map : list (string * string) :=
  [("1d", "1"); ("3d", "3"); ("7d", "7"); ("15d", "15"); ("30d", "30")].

(** The [queryParams] array, pushed to in source order. *)
Definition search_query_params (params : JobSearchParams) (f : SearchFilters)
  : list string :=
  let q := match experienceMin f with
           | Some n => ["experience=" ++ z_to_dec n]
           | None => []
           end in
  let q := match salaryMin f with
           | Some n => if (n =? 0)%Z then q else (q ++ [("salary=" ++ z_to_dec n)%string])%list
           | None => q
           end in
  let q := match postedWithin f with
           | Some pw =>
               if String.eqb pw "" then q
               else (q ++ [("jobAge=" ++ js_to_string
                             (js_or (literal_lookup days_map pw) (JSString "30")))%string])%list
           | None => q
           end in
  match params_page params with
  | Some pg => if (1 <? pg)%Z then (q ++ [("page=" ++ z_to_dec pg)%string])%list else q
  | None => q
  end.

(** [keywords.join('-').toLowerCase().replace(/\s+/g, '-')] *)
Definition slug (xs : list string) : string :=
  replace_spaces_dash (toLowerCase (join "-" xs)).

(** The URL before its query string. *)
Definition search_path (params : JobSearchParams) : string :=
  naukri_baseUrl ++ "/" ++ slug (keywords params) ++ "-jobs-in-" ++
  slug (locations params).

(** [buildSearchUrl(params)] *)
Definition buildSearchUrl (params : JobSearchParams) (f : SearchFilters)
  : string :=
  let url := search_path params in
  let queryParams := search_query_params params f in
  if 0 <? List.length queryParams then url ++ "?" ++ join "&" queryParams
  else url.


(** ** NaukriScraper.extractJobListings *)

(** What the page function reads from one job card: the [data-job-id]
    attribute, the resolved [href] of the first link, the text content of
    the title, company and description elements, and the [href] attribute
    of the title link ([None] where the element or attribute is missing).
    Location, experience and the scrape time go to fields [Job] does not
    keep here. *)
Record JobCard := mkCard {
  card_data_job_id : option string;
  card_first_href : option string;
  card_title : option string;
  card_company : option string;
  card_link_href : option string;
  card_description : option string
}.

Definition is_digit (c : ascii) : bool :=
  let n := nat_of_ascii c in (48 <=? n) && (n <=? 57).

(** The longest run of digits at the start of a string. *)
Fixpoint take_digits (s : string) : string :=
  match s with
  | EmptyString => EmptyString
  | String c s' => if is_digit c then String c (take_digits s') else EmptyString
  end.

(** [s.match(/jobid=(\d+)/)?.[1]]: the digits after the leftmost
    ["jobid="] that is followed by at least one digit. *)
Fixpoint jobid_match (s : string) : option string :=
  let here :=
    if String.prefix "jobid=" s
    then take_digits (substring 6 (String.length s) s) else EmptyString in
  if negb (String.eqb here "") then Some here
  else match s with
       | EmptyString => None
       | String _ s' => jobid_match s'
       end.

(** [el?.textContent?.trim() || dflt] *)
Definition text_or (t : option string) (dflt : string) : string :=
  match t with
  | Some x => let x' := trim x in if String.eqb x' "" then dflt else x'
  | None => dflt
  end.

(** The [jobId] chain: [data-job-id || link match || `naukri-${now}-${index}`]. *)
Definition card_jobId (now : Z) (index : nat) (card : JobCard) : string :=
  match card_data_job_id card with
  | Some d => if negb (String.eqb d "") then d else
      match option_map jobid_match (card_first_href card) with
      | Some (Some m) => m
      | _ => "naukri-" ++ z_to_dec now ++ "-" ++ nat_to_dec index
      end
  | None =>
      match option_map jobid_match (card_first_href card) with
      | Some (Some m) => m
      | _ => "naukri-" ++ z_to_dec now ++ "-" ++ nat_to_dec index
      end
  end.

(** The job the callback pushes for one card. *)
Definition card_to_job (now : Z) (index : nat) (card : JobCard) : Job :=
  let jobId := card_jobId now index card in
  let jobUrl := match card_link_href card with
                | Some h => if String.eqb h "" then "" else h
                | None => ""
                end in
  mkJob ("naukri-" ++ jobId) jobId
    (text_or (card_title card) "Unknown Title")
    (text_or (card_company card) "Unknown Company")
    (text_or (card_description card) "")
    (if startsWith jobUrl "http" then jobUrl else "https://www.naukri.com" ++ jobUrl).

(** [jobCards.forEach((card, index) => ...)], with [Date.now()] read once
    per card. *)
Fixpoint extract_from (now : nat -> Z) (index : nat) (cards : list JobCard)
  : list Job :=
  match cards with
  | [] => []
  | card :: cards' =>
      card_to_job (now index) index card :: extract_from now (S index) cards'
  end.

Definition extractJobListings_dom (now : nat -> Z) (cards : list JobCard)
  : list Job :=
  extract_from now 0 cards.


(** ** NaukriScraper.fillScreeningAnswer: the DOM side *)

(** The id [getScreeningQuestions] gives the question of container
    [index]: [`q-${index}`]. *)
Definition question_id_string (index : nat) : string :=
  "q-" ++ nat_to_dec index.

(** [s.replace('q-', '')]: the first occurrence only. *)
Fixpoint replace_first_qdash (s : string) : string :=
  if String.prefix "q-" s then substring 2 (String.length s) s
  else match s with
       | EmptyString => EmptyString
       | String c s' => String c (replace_first_qdash s')
       end.

(** A number [parseInt] returns: [NaN], or a sign and a magnitude. *)
Inductive ParsedInt := PNaN | PNum (negative : bool) (n : nat).

Fixpoint take_digits_l (l : list ascii) : list ascii :=
  match l with
  | [] => []
  | c :: l' => if is_digit c then c :: take_digits_l l' else []
  end.

Definition digits_value (l : list ascii) : nat :=
  fold_left (fun acc c => acc * 10 + (nat_of_ascii c - 48)) l 0.

Definition parse_digits (negative : bool) (l : list ascii) : ParsedInt :=
  match take_digits_l l with
  | [] => PNaN
  | ds => PNum negative (digits_value ds)
  end.

(** [parseInt(s, 10)]: leading white space, an optional sign, then the
    longest run of decimal digits. *)
Definition parseInt10 (s : string) : ParsedInt :=
  match drop_spaces (list_ascii_of_string s) with
  | c :: r =>
      if Ascii.eqb c "-" then parse_digits true r
      else if Ascii.eqb c "+" then parse_digits false r
      else parse_digits false (c :: r)
  | [] => PNaN
  end.

(** [containers[idx]] for a number [idx]: the property key is the number's
    string, so [NaN] and negative numbers find nothing, and [-0] is
    index 0. *)
Definition container_at {A} (cs : list A) (idx : ParsedInt) : option A :=
  match idx with
  | PNaN => None
  | PNum neg n => if neg && negb (n =? 0) then None else nth_error cs n
  end.

(** One container as the fill function sees it: whether it holds a text
    input or textarea, a number input, a select (the value and text of each
    option), the ids of its radio inputs, and the text content of
    [label[for=id]]. *)
Record FillContainer := mkFillContainer {
  f_text : bool;
  f_number : bool;
  f_select : option (list (string * string));
  f_radios : list string;
  f_label_for : string -> option string
}.

(** What the page function does to the container. *)
Inductive FillAction :=
| FillNothing
| FillText (value : string)
| FillNumber (value : string)
| FillSelect (chosen : option string)   (* the value set, if an option matched *)
| FillRadios (clicked : list string).   (* the radios clicked, in order *)

(** The body of the page function once the container is found. *)
Definition fill_container (ans : string) (c : FillContainer) : FillAction :=
  if f_text c then FillText ans
  else if f_number c then FillNumber ans
  else match f_select c with
       | Some opts =>
           match find (fun o => includes (toLowerCase (snd o)) (toLowerCase ans))
                   opts with
           | Some o => FillSelect (Some (fst o))
           | None => FillSelect None
           end
       | None =>
           if 0 <? List.length (f_radios c) then
             FillRadios
               (filter (fun id => match f_label_for c id with
                                  | Some t => includes (toLowerCase t) (toLowerCase ans)
                                  | None => false
                                  end) (f_radios c))
           else FillNothing
       end.

(** The page function of [fillScreeningAnswer(questionId, answer)]. *)
Definition fillScreeningAnswer_dom (questionId answer : string)
    (cs : list FillContainer) : FillAction :=
  let index := parseInt10 (replace_first_qdash questionId) in
  match container_at cs index with
  | Some container => fill_container answer container
  | None => FillNothing
  end.

(** One element matched by the question-container selector, as both page
    functions read it. *)
Record DomContainer := mkDomContainer {
  dc_question : Container;
  dc_fill : FillContainer
}.


(** ** NaukriScraper.submitApplication with its selector loop *)

(** [BaseScraper.safeClick(selector)]: [page.$(selector)] finds the
    element or not, then [element.click()]; a throw of either is caught. *)
Definition safeClick (found : Outcome bool) (click : Outcome unit) : M bool :=
  catch (el <- lift found;;
         if el then lift click;; ret true else ret false)
        (fun _ => ret false).

(** The [for (const selector of submitSelectors)] loop; each selector comes
    with what [page.$] and [click] do for it, and [check] is
    [checkApplicationSuccess()]. *)
Fixpoint submit_loop (sels : list (Outcome bool * Outcome unit))
    (check : Outcome bool) : M bool :=
  match sels with
  | [] => ret false
  | (found, click) :: rest =>
      clicked <- safeClick found click;;
      if clicked then log LInfo;; lift check
      else submit_loop rest check
  end.

(** [submitApplication()] *)
Definition submitApplication_dom (sels : list (Outcome bool * Outcome unit))
    (check : Outcome bool) : M bool :=
  require_page;;
  catch (submit_loop sels check) (fun _ => log LError;; ret false).

(** The selector whose click goes through first, with its position. *)
Fixpoint first_clicked (sels : list (Outcome bool * Outcome unit)) : option nat :=
  match sels with
  | [] => None
  | (Ok true, Ok _) :: _ => Some 0
  | _ :: rest => option_map S (first_clicked rest)
  end.

(** The log events of [submitApplication] with a page: ['Clicked submit
    button'] after a click, ['Submit failed'] when the check then throws. *)
Definition submit_trace (sels : list (Outcome bool * Outcome unit))
    (check : Outcome bool) : list Act :=
  match first_clicked sels with
  | Some _ => EvLog LInfo :: match check with Ok _ => [] | Exn _ => [EvLog LError] end
  | None => []
  end.

(** [checkApplicationSuccess()]'s page function: one of the indicator
    selectors matches, or the body text holds one of the phrases. *)
Definition checkApplicationSuccess_dom (indicators : list bool)
    (bodyText : option string) : bool :=
  existsb (fun b => b) indicators ||
  (let t := toLowerCase (match bodyText with Some b => b | None => "" end) in
   includes t "application submitted" || includes t "successfully applied" ||
   includes t "application successful").


(** ** NaukriScraper.checkLoginStatus *)

Definition set_isLoggedIn (b : bool) (s : ScraperState) : ScraperState :=
  mkScraperState b (s_isRunning s) (currentJob s) (appliedCount s) (failedCount s).

(** [checkLoginStatus()]: [goto] is [page.goto(this.baseUrl)], [loggedIn]
    the page function that looks for the user menu and the login button. *)
Definition checkLoginStatus_dom (goto : Outcome unit) (loggedIn : Outcome bool)
  : M bool :=
  require_page;;
  catch (lift goto;;
         b <- lift loggedIn;;
         modify (upd_state (set_isLoggedIn b));;
         log LInfo;;
         ret b)
        (fun _ => log LError;; ret false).

(** ** BaseScraper.close and the manager's dispatch *)

(** [this.page = null; this.context = null; this.browser = null;
    this.state.isRunning = false] *)
Definition closed_world (w : World) : World :=
  mkWorld false
    (let s := ws_state w in
     mkScraperState (isLoggedIn s) false (currentJob s) (appliedCount s)
       (failedCount s))
    (ws_profile w) (ws_isRunning w) (ws_shouldStop w) (ws_maxApplications w)
    (ws_delayBetween w) (ws_calls w) (ws_trace w).

(** [BaseScraper.close()]; [saveSession()] is empty.  [contextClose] and
    [browserClose] are what [if (this.context) await this.context.close()]
    and [if (this.browser) await this.browser.close()] do. *)
Definition base_close (pageClose contextClose browserClose : Outcome unit)
  : M unit :=
  log LInfo;;
  w <- get;;
  (if ws_page w then lift pageClose else ret tt);;
  lift contextClose;;
  lift browserClose;;
  modify closed_world;;
  log LInfo.

(** ** The [/search] route: saving the jobs found *)

(** The row inserted for a job, with [id: job.id || generateId()]. *)
Definition job_row (job : Job) (generatedId : string) : Job :=
  mkJob (if String.eqb (job_id job) "" then generatedId else job_id job)
    (externalId job) (title job) (company job) (description job) (jobUrl job).

(** [for (const job of result.jobs)]: look the external id up in the jobs
    table and insert the job when it is not there; [generateId n] is the id
    [generateId()] returns at the insert made with [savedCount = n]. *)
Fixpoint save_jobs (generateId : nat -> string) (rows : list Job)
    (jobs : list Job) (savedCount : nat) : list Job * nat :=
  match jobs with
  | [] => (rows, savedCount)
  | job :: rest =>
      match find (fun r => String.eqb (externalId r) (externalId job)) rows with
      | Some _ => save_jobs generateId rows rest savedCount
      | None =>
          save_jobs generateId (rows ++ [job_row job (generateId savedCount)])
            rest (S savedCount)
      end
  end.

(** ** The status the [/apply] and [/process-queue] routes write *)

(** [result.success ? 'applied' : (result.alreadyApplied ? 'skipped' : 'failed')] *)
Definition route_status (result : ApplyResult) : string :=
  if success result then "applied"
  else match alreadyApplied result with
       | Some true => "skipped"
       | _ => "failed"
       end.

(** * Properties *)

Open Scope list_scope.

Example scenario_A :
  fst (processJobQueue "naukri" [job1; job2; job3] env_all_apply world0)
  = Ok (mkQueueResult 3 0 0).
Proof. vm_compute. reflexivity. Qed.

Example scenario_D :
  let w := mkWorld true session0 (Some (mkProfile "candidate")) false false 2 0 [] [] in
  let (o, w') := processJobQueue "naukri" [job1; job2; job3; job1; job2]
                   env_all_apply w in
  o = Ok (mkQueueResult 2 0 0) /\ ws_calls w' = [job1; job2].
Proof. vm_compute. split; reflexivity. Qed.

Example select_radio_is_radio :
  getScreeningQuestions_dom [container_select_radio]
  = [mkQuestion 0 "Notice period" QRadio (Some ["30 days"; "Immediate"]) true None].
Proof. vm_compute. reflexivity. Qed.

(** ** Question types *)

Lemma container_type_last_rule (c : Container) :
  container_type c = last_rule_priority_type c.
Proof.
  unfold container_type, last_rule_priority_type.
  destruct (c_number c); [reflexivity|].
  destruct (1 <? List.length (c_checkboxes c)); [reflexivity|].
  destruct (List.length (c_checkboxes c) =? 1); [reflexivity|].
  destruct (0 <? List.length (c_radios c)); [reflexivity|].
  destruct (c_select c); reflexivity.
Qed.

Lemma questions_from_nth (cs : list Container) :
  forall k i c, nth_error cs i = Some c -> c_label c <> "" ->
  exists q, In q (questions_from k cs) /\ sq_id q = k + i /\
            sq_type q = container_type c.
Proof.
  induction cs as [|c0 cs IH]; intros k i c Hnth Hlab.
  - destruct i; discriminate.
  - destruct i as [|i]; simpl in Hnth.
    + injection Hnth as ->. simpl. unfold question_of_container.
      destruct (String.eqb_spec (c_label c) "") as [E|_]; [contradiction|].
      eexists. split; [left; reflexivity|]. simpl. split; [lia|reflexivity].
    + destruct (IH (S k) i c Hnth Hlab) as (q & Hin & Hid & Hty).
      exists q. split; [|split; [lia|exact Hty]].
      simpl. destruct (question_of_container k c0); [right|]; exact Hin.
Qed.


(** C1 (as amended).  Every container with a label yields the question
    [q-<index>] whose type is decided by the last check that fires in the
    source: number > multiselect > checkbox > radio > select > text. *)
Theorem getScreeningQuestions_type_precedence (cs : list Container) (i : nat)
    (c : Container) :
  nth_error cs i = Some c -> c_label c <> "" ->
  exists q, In q (getScreeningQuestions_dom cs) /\ sq_id q = i /\
            sq_type q = last_rule_priority_type c.
Proof.
  intros Hnth Hlab.
  destruct (questions_from_nth cs 0 i c Hnth Hlab) as (q & Hin & Hid & Hty).
  exists q. split; [exact Hin|]. split; [exact Hid|].
  rewrite Hty. apply container_type_last_rule.
Qed.

Lemma getScreeningQuestions_type_precedence_witness :
  nth_error [container_select_radio] 0 = Some container_select_radio /\
  c_label container_select_radio <> "" /\
  exists q, In q (getScreeningQuestions_dom [container_select_radio]) /\
            sq_id q = 0 /\
            sq_type q = last_rule_priority_type container_select_radio.
Proof.
  split; [reflexivity|]. split; [discriminate|].
  apply (getScreeningQuestions_type_precedence [container_select_radio] 0
           container_select_radio); [reflexivity|discriminate].
Defined.

(** C1, counterexample.  A container holding a select element and a radio
    input gets type radio, not the select that the first-match precedence
    select > radio > ... would give. *)
Lemma getScreeningQuestions_select_radio_counterexample :
  ~ (forall cs i c, nth_error cs i = Some c -> c_label c <> "" ->
     exists q, In q (getScreeningQuestions_dom cs) /\ sq_id q = i /\
               sq_type q = spec_priority_type c).
Proof.
  intro H.
  destruct (H [container_select_radio] 0 container_select_radio eq_refl
              ltac:(discriminate)) as (q & Hin & _ & Hty).
  simpl in Hin. destruct Hin as [<- | []]. discriminate Hty.
Qed.

(** ** The scraper's applyToJob *)

Ltac unfold_monad :=
  unfold naukri_applyToJob, getScreeningQuestions, require_page, try_finally,
    catch, bind, ret, throw, lift, get, modify, ask, emit, log, attempt_env,
    upd_state, upd_trace, set_currentJob, incr_appliedCount, incr_failedCount
  in *.

Ltac split_outcomes :=
  repeat match goal with
    | |- context [match ?o with Ok _ => _ | Exn _ => _ end] =>
        lazymatch o with fst _ => fail | _ => destruct o; cbn end
    | |- context [if ?b then _ else _] => destruct b; cbn
    end.

Ltac destruct_world w :=
  let pg := fresh "pg" in let st := fresh "st" in
  destruct w as [pg st ? ? ? ? ? ? ?]; destruct st; simpl in *.

(** C10.  On every exit of the scraper's applyToJob, [currentJob] is null:
    with the browser initialised the finally block clears it on the success,
    already-applied, error, screening-pending and caught-exception paths
    alike; without it the call throws before touching the state. *)
Theorem naukri_applyToJob_resets_currentJob (job : Job) (e : Env) (w : World) :
  let w' := snd (naukri_applyToJob job e w) in
  (ws_page w = true /\ currentJob (ws_state w') = None) \/
  (ws_page w = false /\ w' = w).
Proof.
  destruct_world w. destruct pg; [left | right]; split; try reflexivity.
  unfold_monad. cbn. set (x := e_attempt e _).
  split_outcomes; reflexivity.
Qed.

Ltac solve_counters :=
  do 2 eexists; split; [reflexivity|];
  split; [rewrite <- ?app_assoc; reflexivity|];
  first
    [ left; solve [repeat split; reflexivity]
    | right; left; eexists; split; [reflexivity|];
      split; [simpl; auto 20|]; split; reflexivity
    | right; right; split; [simpl; intuition discriminate|];
      split; [reflexivity|]; split; [reflexivity|];
      solve [ left; reflexivity | right; left; reflexivity
            | right; right; left; reflexivity
            | right; right; right; eexists; reflexivity ] ].

(** C3 (as amended).  With the browser initialised, the scraper's
    applyToJob returns a result and changes the session counters as
    follows: [{success:true}] increments appliedCount only; the catch block
    (a browser step threw; it emits onError) returns the error and increments
    failedCount only; the already-applied, apply-button-not-found,
    submission-unclear and screening-pending returns change neither
    counter. *)
Theorem naukri_applyToJob_session_counters (job : Job) (e : Env) (w : World) :
  ws_page w = true ->
  match naukri_applyToJob job e w with
  | (o, w') =>
    let a := appliedCount (ws_state w) in
    let f := failedCount (ws_state w) in
    let a' := appliedCount (ws_state w') in
    let f' := failedCount (ws_state w') in
    exists r tr, o = Ok r /\ ws_trace w' = ws_trace w ++ tr /\
    ((r = mkResult true None None None /\ a' = S a /\ f' = f) \/
     (exists msg, r = mkResult false None (Some msg) None /\
        In (EvError (Some job)) tr /\ a' = a /\ f' = S f) \/
     (~ In (EvError (Some job)) tr /\ a' = a /\ f' = f /\
      (r = mkResult false (Some true) None None \/
       r = mkResult false None (Some button_error) None \/
       r = mkResult false None (Some unclear_error) None \/
       exists qs, r = mkResult false None (Some screening_error) (Some qs))))
  end.
Proof.
  intros Hp. destruct_world w. subst pg.
  unfold_monad. cbn. set (x := e_attempt e _).
  split_outcomes; solve_counters.
Qed.

Lemma naukri_applyToJob_session_counters_witness :
  ws_page world0 = true /\
  match naukri_applyToJob job1 (env_of page_applies) world0 with
  | (o, w') =>
    let a := appliedCount (ws_state world0) in
    let f := failedCount (ws_state world0) in
    let a' := appliedCount (ws_state w') in
    let f' := failedCount (ws_state w') in
    exists r tr, o = Ok r /\ ws_trace w' = ws_trace world0 ++ tr /\
    ((r = mkResult true None None None /\ a' = S a /\ f' = f) \/
     (exists msg, r = mkResult false None (Some msg) None /\
        In (EvError (Some job1)) tr /\ a' = a /\ f' = S f) \/
     (~ In (EvError (Some job1)) tr /\ a' = a /\ f' = f /\
      (r = mkResult false (Some true) None None \/
       r = mkResult false None (Some button_error) None \/
       r = mkResult false None (Some unclear_error) None \/
       exists qs, r = mkResult false None (Some screening_error) (Some qs))))
  end.
Proof.
  split; [reflexivity|].
  apply (naukri_applyToJob_session_counters job1 (env_of page_applies) world0).
  reflexivity.
Defined.

(** C3, counterexample.  When the apply button is missing the scraper
    returns [{success:false, error:'Apply button not found'}], a failed
    attempt with no screening questions, and failedCount stays 0. *)
Lemma naukri_applyToJob_button_missing_counterexample :
  ~ (forall job e w r, ws_page w = true ->
       fst (naukri_applyToJob job e w) = Ok r ->
       success r = false -> alreadyApplied r = None ->
       screeningQuestions r = None ->
       failedCount (ws_state (snd (naukri_applyToJob job e w)))
       = S (failedCount (ws_state w))).
Proof.
  intro H.
  assert (E := H job1 (env_of page_no_button) world0
                 (mkResult false None (Some button_error) None) eq_refl
                 ltac:(vm_compute; reflexivity) eq_refl eq_refl eq_refl).
  vm_compute in E. discriminate E.
Qed.

(** C5.  When the job page shows the already-applied marker (after the
    navigation, if one is needed), the scraper returns
    [{success:false, alreadyApplied:true}] at once: the only interactions
    are the navigation and the marker check, so no apply button is clicked,
    no question is extracted, no success check and no submission happens,
    and neither counter moves. *)
Theorem naukri_applyToJob_already_applied (job : Job) (e : Env) (w : World) :
  let x := e_attempt e (List.length (ws_calls w)) in
  ws_page w = true -> x_already x = Ok true ->
  (x_url_has_id x = true \/ x_goto x = Ok tt) ->
  match naukri_applyToJob job e w with
  | (o, w') =>
    o = Ok (mkResult false (Some true) None None) /\
    ws_state w' = set_currentJob None (ws_state w) /\
    ws_trace w' =
      ws_trace w ++ EvApplicationStart job ::
      (if x_url_has_id x then [] else [AGoto]) ++
      [AEvalAlreadyApplied; EvLog LInfo]
  end.
Proof.
  intros x Hp Ha Hu. subst x. destruct_world w. subst pg.
  unfold_monad. cbn. set (x := e_attempt e _) in *. clearbody x.
  destruct (x_url_has_id x) eqn:U; cbn.
  - rewrite Ha. cbn. split; [reflexivity|]. split; [reflexivity|].
    rewrite <- !app_assoc. reflexivity.
  - destruct Hu as [Hu|Hu]; [discriminate|]. rewrite Hu. cbn.
    rewrite Ha. cbn. split; [reflexivity|]. split; [reflexivity|].
    rewrite <- !app_assoc. reflexivity.
Qed.

Lemma naukri_applyToJob_already_applied_witness :
  let x := e_attempt (env_of page_already) (List.length (ws_calls world0)) in
  (ws_page world0 = true /\ x_already x = Ok true /\
   (x_url_has_id x = true \/ x_goto x = Ok tt)) /\
  match naukri_applyToJob job1 (env_of page_already) world0 with
  | (o, w') =>
    o = Ok (mkResult false (Some true) None None) /\
    ws_state w' = set_currentJob None (ws_state world0) /\
    ws_trace w' =
      ws_trace world0 ++ EvApplicationStart job1 ::
      (if x_url_has_id x then [] else [AGoto]) ++
      [AEvalAlreadyApplied; EvLog LInfo]
  end.
Proof.
  split.
  - split; [reflexivity|]. split; [reflexivity|]. right; reflexivity.
  - apply (naukri_applyToJob_already_applied job1 (env_of page_already) world0);
      [reflexivity | reflexivity | right; reflexivity].
Defined.

(** ** Frame and loop lemmas for the manager *)

Ltac unfold_mgr :=
  unfold mgr_applyToJob, fillScreeningAnswer, submitApplication,
    record_call, set_isRunning, set_shouldStop in *; unfold_monad.

Ltac frame_tac :=
  unfold same_frame; cbn; repeat split.

Lemma naukri_applyToJob_frame (job : Job) (e : Env) (w : World) :
  same_frame w (snd (naukri_applyToJob job e w)) /\
  exists tr, ws_trace (snd (naukri_applyToJob job e w)) = ws_trace w ++ tr.
Proof.
  destruct_world w. destruct pg.
  - unfold_monad. cbn. set (x := e_attempt e _). clearbody x.
    split_outcomes; (split; [frame_tac | eexists; rewrite <- ?app_assoc; reflexivity]).
  - split; [frame_tac | exists []; rewrite app_nil_r; reflexivity].
Qed.

Lemma naukri_applyToJob_results (job : Job) (e : Env) (w : World) :
  match fst (naukri_applyToJob job e w) with
  | Ok r =>
      r = mkResult true None None None \/
      r = mkResult false (Some true) None None \/
      (exists msg, r = mkResult false None (Some msg) None) \/
      (exists qs, r = mkResult false None (Some screening_error) (Some qs))
  | Exn msg => ws_page w = false /\ msg = browser_not_initialized
  end.
Proof.
  destruct_world w. destruct pg.
  - unfold_monad. cbn. set (x := e_attempt e _). clearbody x.
    split_outcomes;
      solve [ left; reflexivity | right; left; reflexivity
            | right; right; left; eexists; reflexivity
            | right; right; right; eexists; reflexivity ].
  - split; reflexivity.
Qed.

Lemma answer_questions_run (x : AttemptEnv) (qs : list ScreeningQuestion) :
  forall e w, ws_page w = true ->
  exists w',
    answer_questions x qs e w = (Ok (map (expected_answer x) qs), w') /\
    same_frame w w' /\ ws_state w' = ws_state w /\
    ws_trace w' = ws_trace w ++ flat_map (expected_question_steps x) qs.
Proof.
  induction qs as [|q qs IH]; intros e w Hp.
  - exists w. split; [reflexivity|]. split; [frame_tac|].
    split; [reflexivity|]. cbn. rewrite app_nil_r. reflexivity.
  - destruct_world w. subst pg. cbn [answer_questions]. unfold_mgr. cbn.
    unfold expected_answer at 1. unfold expected_question_steps at 1.
    destruct (x_resolve x (sq_id q)) as [ans|m]; cbn;
      [destruct (x_fill x (sq_id q)); cbn|];
      match goal with
      | |- context [answer_questions x qs e ?w1] =>
          destruct (IH e w1 eq_refl) as (w'' & E & F & S & T); rewrite E; cbn
      end;
      exists w''; (split; [reflexivity|]);
      (destruct F as (F1 & F2 & F3 & F4 & F5 & F6 & F7); cbn in *;
       split; [unfold same_frame; rewrite F1, F2, F3, F4, F5, F6, F7;
               repeat split|]);
      (split; [exact S|]); rewrite T, <- !app_assoc; reflexivity.
Qed.

Lemma naukri_applyToJob_ok_page (job : Job) (e : Env) (w : World) (r : ApplyResult) :
  fst (naukri_applyToJob job e w) = Ok r -> ws_page w = true.
Proof.
  destruct_world w. destruct pg; [reflexivity|]. unfold_monad. cbn.
  discriminate.
Qed.

Lemma mgr_applyToJob_no_profile (source : string) (job : Job) (e : Env)
    (w : World) :
  ws_profile w = None ->
  mgr_applyToJob source job e w = (Exn profile_error, record_call job w).
Proof.
  intros Hp. destruct_world w. subst. reflexivity.
Qed.

Lemma mgr_applyToJob_unknown_source (source : string) (job : Job) (e : Env)
    (w : World) :
  ws_profile w <> None -> String.eqb source "naukri" = false ->
  mgr_applyToJob source job e w =
  (Exn ("Unknown source: " ++ source)%string, record_call job w).
Proof.
  intros Hp Hs. destruct_world w.
  destruct ws_profile0; [|contradiction]. unfold_mgr. cbn. rewrite Hs.
  reflexivity.
Qed.

Lemma mgr_applyToJob_naukri (job : Job) (e : Env) (w : World) :
  ws_profile w <> None ->
  mgr_applyToJob "naukri" job e w =
  (let w1 := record_call job w in
   let x := e_attempt e (List.length (ws_calls w1)) in
   match naukri_applyToJob job e w1 with
   | (Ok r, w2) =>
       if has_pending_questions r then
         answer_and_submit x
           (match screeningQuestions r with
            | Some qs => qs | None => [] end) e w2
       else (Ok r, w2)
   | (Exn m, w2) => (Exn m, w2)
   end).
Proof.
  intros Hp. destruct_world w. destruct ws_profile0; [|contradiction].
  unfold mgr_applyToJob, record_call, bind, get, modify, attempt_env.
  cbn -[naukri_applyToJob answer_and_submit].
  destruct (naukri_applyToJob _ _ _) as [[r|m] w2]; [|reflexivity].
  destruct (has_pending_questions r); reflexivity.
Qed.

(** The pending-questions branch of the manager, run to its end. *)
Lemma mgr_pending_branch (x : AttemptEnv) (qs : list ScreeningQuestion)
    (e : Env) (w2 : World) :
  ws_page w2 = true ->
  exists w3,
    answer_and_submit x qs e w2
    = (Ok (mkResult (x_submit x) None None
             (Some (map (expected_answer x) qs))), w3) /\
    same_frame w2 w3 /\ ws_state w3 = ws_state w2 /\
    ws_trace w3 = ws_trace w2 ++ [EvLog LInfo] ++
                  flat_map (expected_question_steps x) qs ++ [ASubmit].
Proof.
  intros Hp.
  destruct (answer_questions_run x qs e (upd_trace (EvLog LInfo) w2))
    as (w' & E & F & S & T).
  { destruct_world w2. exact Hp. }
  unfold answer_and_submit.
  cbv [bind emit modify]. cbv beta iota. rewrite E.
  unfold submitApplication, require_page, bind, get, emit, modify, ret.
  destruct F as (F1 & F2 & F3 & F4 & F5 & F6 & F7).
  destruct_world w2. subst pg. rewrite F1. cbn.
  eexists. split; [reflexivity|].
  split; [unfold same_frame; cbn; rewrite F1, F2, F3, F4, F5, F6, F7;
          repeat split|].
  split; [exact S|]. cbn. rewrite T. cbn. rewrite <- !app_assoc. reflexivity.
Qed.

Lemma record_call_fields (job : Job) (w : World) :
  ws_page (record_call job w) = ws_page w /\
  ws_state (record_call job w) = ws_state w /\
  ws_profile (record_call job w) = ws_profile w /\
  ws_isRunning (record_call job w) = ws_isRunning w /\
  ws_shouldStop (record_call job w) = ws_shouldStop w /\
  ws_maxApplications (record_call job w) = ws_maxApplications w /\
  ws_delayBetween (record_call job w) = ws_delayBetween w /\
  ws_calls (record_call job w) = ws_calls w ++ [job] /\
  ws_trace (record_call job w) = ws_trace w.
Proof. repeat split. Qed.

(** The manager's applyToJob records the call and leaves the manager's
    fields and the page as they were, on every outcome. *)
Lemma mgr_applyToJob_frame (source : string) (job : Job) (e : Env) (w : World) :
  let w' := snd (mgr_applyToJob source job e w) in
  ws_calls w' = ws_calls w ++ [job] /\ ws_page w' = ws_page w /\
  ws_profile w' = ws_profile w /\ ws_isRunning w' = ws_isRunning w /\
  ws_shouldStop w' = ws_shouldStop w /\
  ws_maxApplications w' = ws_maxApplications w /\
  ws_delayBetween w' = ws_delayBetween w.
Proof.
  cbv zeta.
  destruct (record_call_fields job w) as (R1 & R2 & R3 & R4 & R5 & R6 & R7 & R8 & R9).
  destruct (ws_profile w) as [u|] eqn:P.
  - destruct (String.eqb source "naukri") eqn:S.
    + apply String.eqb_eq in S. subst source.
      rewrite mgr_applyToJob_naukri by congruence. cbv zeta.
      destruct (naukri_applyToJob_frame job e (record_call job w)) as [F _].
      pose proof (naukri_applyToJob_ok_page job e (record_call job w)) as OkP.
      destruct (naukri_applyToJob job e (record_call job w)) as [[r|m] w2];
        cbn in F, OkP; destruct F as (F1 & F2 & F3 & F4 & F5 & F6 & F7).
      * destruct (has_pending_questions r).
        -- assert (Hp2 : ws_page w2 = true)
             by (rewrite F1; apply (OkP r); reflexivity).
           cbv iota beta.
           match goal with
           | |- context [answer_and_submit ?x ?qs ?e2 ?w2'] =>
               pose proof (mgr_pending_branch x qs e2 w2' Hp2) as PB
           end.
           destruct PB as (w3 & E & G & _ & _). rewrite E. cbn. destruct G as (G1 & G2 & G3 & G4 & G5 & G6 & G7).
           repeat split; congruence.
        -- cbn. repeat split; congruence.
      * cbn. repeat split; congruence.
    + rewrite mgr_applyToJob_unknown_source by (try congruence; exact S).
      cbn. repeat split; congruence.
  - rewrite mgr_applyToJob_no_profile by exact P. cbn.
    repeat split; congruence.
Qed.

(** C7.  Without a profile, the manager's applyToJob throws 'Profile not
    set' and leaves the trace and the scraper state as they were (only the
    call itself is recorded): no scraper or browser interaction happens.
    With a profile set, this error never comes out of it. *)
Theorem mgr_applyToJob_requires_profile (source : string) (job : Job)
    (e : Env) (w : World) :
  (ws_profile w = None ->
   mgr_applyToJob source job e w = (Exn profile_error, record_call job w) /\
   ws_trace (record_call job w) = ws_trace w /\
   ws_state (record_call job w) = ws_state w) /\
  (ws_profile w <> None ->
   fst (mgr_applyToJob source job e w) <> Exn profile_error).
Proof.
  split.
  - intros P. split; [apply mgr_applyToJob_no_profile; exact P|].
    split; reflexivity.
  - intros P.
    destruct (String.eqb source "naukri") eqn:S.
    + apply String.eqb_eq in S. subst source.
      rewrite mgr_applyToJob_naukri by exact P. cbv zeta.
      pose proof (naukri_applyToJob_results job e (record_call job w)) as Res.
      destruct (naukri_applyToJob_frame job e (record_call job w)) as [F _].
      pose proof (naukri_applyToJob_ok_page job e (record_call job w)) as OkP.
      destruct (naukri_applyToJob job e (record_call job w)) as [[r|m] w2];
        cbn in Res, F, OkP; cbn -[answer_and_submit].
      * destruct (has_pending_questions r); [|discriminate].
        assert (Hp2 : ws_page w2 = true)
          by (destruct F as (F1 & _); rewrite F1; apply (OkP r); reflexivity).
        cbv iota beta.
        match goal with
        | |- context [answer_and_submit ?x ?qs ?e2 ?w2'] =>
            pose proof (mgr_pending_branch x qs e2 w2' Hp2) as PB
        end.
        destruct PB as (w3 & E & _). rewrite E. discriminate.
      * destruct Res as [_ ->]. discriminate.
    + rewrite mgr_applyToJob_unknown_source by (try exact P; exact S).
      discriminate.
Qed.

Lemma mgr_applyToJob_requires_profile_witness :
  ((ws_profile (set_isRunning false world0) = Some (mkProfile "candidate") /\
    ws_profile (mkWorld true session0 None false false 50 0 [] []) = None) /\
   ((ws_profile (mkWorld true session0 None false false 50 0 [] []) = None ->
     mgr_applyToJob "naukri" job1 env_all_apply
       (mkWorld true session0 None false false 50 0 [] [])
     = (Exn profile_error,
        record_call job1 (mkWorld true session0 None false false 50 0 [] [])) /\
     ws_trace (record_call job1 (mkWorld true session0 None false false 50 0 [] []))
     = ws_trace (mkWorld true session0 None false false 50 0 [] []) /\
     ws_state (record_call job1 (mkWorld true session0 None false false 50 0 [] []))
     = ws_state (mkWorld true session0 None false false 50 0 [] [])) /\
    (ws_profile world0 <> None ->
     fst (mgr_applyToJob "naukri" job1 env_all_apply world0)
     <> Exn profile_error))).
Proof.
  split; [split; reflexivity|].
  split.
  - apply (mgr_applyToJob_requires_profile "naukri" job1 env_all_apply
             (mkWorld true session0 None false false 50 0 [] [])).
  - apply (mgr_applyToJob_requires_profile "naukri" job1 env_all_apply world0).
Defined.

(** C8.  When the scraper returns pending screening questions, the manager
    resolves and fills them in order; a question whose resolver call (or
    fill) throws is logged at error level and left unanswered, and the loop
    goes on with the next one.  Then submitApplication is called once, last,
    and the outcome's success is the submission's result, carrying the
    question list with the answers that went through. *)
Theorem mgr_applyToJob_screening_continues (job : Job) (e : Env) (w : World)
    (qs : list ScreeningQuestion) :
  let w1 := record_call job w in
  let x := e_attempt e (List.length (ws_calls w1)) in
  ws_profile w <> None ->
  fst (naukri_applyToJob job e w1) =
    Ok (mkResult false None (Some screening_error) (Some qs)) ->
  qs <> [] ->
  match mgr_applyToJob "naukri" job e w with
  | (o, w') =>
    o = Ok (mkResult (x_submit x) None None
              (Some (map (expected_answer x) qs))) /\
    ws_trace w' = ws_trace (snd (naukri_applyToJob job e w1)) ++
                  [EvLog LInfo] ++ flat_map (expected_question_steps x) qs ++
                  [ASubmit]
  end.
Proof.
  intros w1 x Hp Hr Hne. subst w1 x.
  rewrite mgr_applyToJob_naukri by exact Hp. cbv zeta.
  destruct (naukri_applyToJob_frame job e (record_call job w)) as [F _].
  pose proof (naukri_applyToJob_ok_page job e (record_call job w) _ Hr) as OkP.
  destruct (naukri_applyToJob job e (record_call job w)) as [o w2].
  cbn in Hr, F. subst o.
  destruct qs as [|q qs]; [contradiction|].
  assert (Hp2 : ws_page w2 = true)
    by (destruct F as (F1 & _); rewrite F1; exact OkP).
  cbn -[answer_and_submit].
  match goal with
  | |- context [answer_and_submit ?x ?l ?e2 ?w2'] =>
      pose proof (mgr_pending_branch x l e2 w2' Hp2) as PB
  end.
  destruct PB as (w3 & E & _ & _ & T). rewrite E.
  split; [reflexivity|]. exact T.
Qed.

Lemma mgr_applyToJob_screening_continues_witness :
  let w1 := record_call job1 world0 in
  let e := env_of page_resolver_fails_first in
  let x := e_attempt e (List.length (ws_calls w1)) in
  let qs := getScreeningQuestions_dom [container_select_radio; container_years] in
  (ws_profile world0 <> None /\
   fst (naukri_applyToJob job1 e w1) =
     Ok (mkResult false None (Some screening_error) (Some qs)) /\
   qs <> []) /\
  match mgr_applyToJob "naukri" job1 e world0 with
  | (o, w') =>
    o = Ok (mkResult (x_submit x) None None
              (Some (map (expected_answer x) qs))) /\
    ws_trace w' = ws_trace (snd (naukri_applyToJob job1 e w1)) ++
                  [EvLog LInfo] ++ flat_map (expected_question_steps x) qs ++
                  [ASubmit]
  end.
Proof.
  split.
  - split; [discriminate|]. split; [vm_compute; reflexivity|]. discriminate.
  - apply (mgr_applyToJob_screening_continues job1
             (env_of page_resolver_fails_first) world0
             (getScreeningQuestions_dom [container_select_radio; container_years]));
      [discriminate | vm_compute; reflexivity | discriminate].
Defined.

(** Scenario C on the concrete page: the first question stays unanswered,
    the second is answered and filled, the submission is attempted. *)
Example scenario_C :
  let (o, w') := mgr_applyToJob "naukri" job1
                   (env_of page_resolver_fails_first) world0 in
  o = Ok (mkResult true None None
            (Some [mkQuestion 0 "Notice period" QRadio
                     (Some ["30 days"; "Immediate"]) true None;
                   mkQuestion 1 "Years of experience" QNumber None true
                     (Some "5")])) /\
  skipn 7 (ws_trace w') =
    [EvLog LInfo; AResolve 0; EvLog LError; AResolve 1; EvLog LInfo;
     EvLog LInfo; AFill 1 "5"; EvScreeningQuestion 1 "5"; ASubmit].
Proof. vm_compute. split; reflexivity. Qed.

(** C4 (as amended).  The scraper's applyToJob returns one of four shapes:
    [{success:true}], [{success:false, alreadyApplied:true}],
    [{success:false, error}] without questions, or
    [{success:false, error:'Screening questions require answers',
      screeningQuestions}].  The manager's applyToJob returns one of these,
    or, after answering a non-empty question list,
    [{success:<submission result>, screeningQuestions}] with neither error
    nor alreadyApplied. *)
Theorem apply_outcome_shapes (source : string) (job : Job) (e : Env)
    (w : World) :
  (match fst (naukri_applyToJob job e w) with
   | Ok r => scraper_result_shape r
   | Exn _ => True
   end) /\
  (match fst (mgr_applyToJob source job e w) with
   | Ok r => scraper_result_shape r \/
             (exists s qs, r = mkResult s None None (Some qs) /\ qs <> [])
   | Exn _ => True
   end).
Proof.
  split.
  - pose proof (naukri_applyToJob_results job e w) as Res.
    destruct (fst (naukri_applyToJob job e w)); [exact Res | exact I].
  - destruct (ws_profile w) as [u|] eqn:P.
    2:{ rewrite mgr_applyToJob_no_profile by exact P. exact I. }
    destruct (String.eqb source "naukri") eqn:S.
    2:{ rewrite mgr_applyToJob_unknown_source by (try congruence; exact S).
        exact I. }
    apply String.eqb_eq in S. subst source.
    rewrite mgr_applyToJob_naukri by congruence. cbv zeta.
    pose proof (naukri_applyToJob_results job e (record_call job w)) as Res.
    destruct (naukri_applyToJob_frame job e (record_call job w)) as [F _].
    pose proof (naukri_applyToJob_ok_page job e (record_call job w)) as OkP.
    destruct (naukri_applyToJob job e (record_call job w)) as [[r|m] w2];
      cbn in Res, F, OkP; cbn -[answer_and_submit]; [|exact I].
    destruct (has_pending_questions r) eqn:Pend; [|left; exact Res].
    assert (Hp2 : ws_page w2 = true)
      by (destruct F as (F1 & _); rewrite F1; apply (OkP r); reflexivity).
    match goal with
    | |- context [answer_and_submit ?x ?l ?e2 ?w2'] =>
        pose proof (mgr_pending_branch x l e2 w2' Hp2) as PB
    end.
    destruct PB as (w3 & E & _). rewrite E. cbn. right.
    do 2 eexists. split; [reflexivity|].
    destruct r as [[|] aa er [[|q qs]|]]; cbn in Pend |- *; congruence.
Qed.

(** C4, counterexample.  On a page with a screening question the scraper's
    outcome carries the pending questions together with an error string,
    and after a successful submission the manager's outcome carries
    [success:true] together with the question list. *)
Lemma apply_outcome_combined_counterexample :
  ~ (forall job e w r,
       fst (naukri_applyToJob job e w) = Ok r ->
       screeningQuestions r <> None -> error r = None) /\
  ~ (forall source job e w r,
       fst (mgr_applyToJob source job e w) = Ok r ->
       success r = true -> screeningQuestions r = None).
Proof.
  split; intro H.
  - specialize (H job1 (env_of page_questions) world0
                  (mkResult false None (Some screening_error)
                     (Some [mkQuestion 0 "Notice period" QRadio
                              (Some ["30 days"; "Immediate"]) true None]))).
    assert (E : fst (naukri_applyToJob job1 (env_of page_questions) world0) =
                Ok (mkResult false None (Some screening_error)
                      (Some [mkQuestion 0 "Notice period" QRadio
                               (Some ["30 days"; "Immediate"]) true None])))
      by (vm_compute; reflexivity).
    specialize (H E ltac:(discriminate)). discriminate H.
  - specialize (H "naukri" job1 (env_of page_questions) world0
                  (mkResult true None None
                     (Some [mkQuestion 0 "Notice period" QRadio
                              (Some ["30 days"; "Immediate"]) true
                              (Some "Immediate")]))).
    assert (E : fst (mgr_applyToJob "naukri" job1 (env_of page_questions)
                       world0) =
                Ok (mkResult true None None
                      (Some [mkQuestion 0 "Notice period" QRadio
                               (Some ["30 days"; "Immediate"]) true
                               (Some "Immediate")])))
      by (vm_compute; reflexivity).
    specialize (H E eq_refl). discriminate H.
Qed.

(** C9.  Every result of [searchJobs] has
    [hasMore = (jobs.length > 0 && page * 20 < totalCount)], and its page
    is the requested page, or 1 when none (or 0) was given.  This also
    holds on the early return when no listing appears, where the job list
    is empty and [hasMore] is false. *)
Theorem naukri_searchJobs_hasMore (params : JobSearchParams) (e : Env)
    (w : World) :
  match fst (naukri_searchJobs params e w) with
  | Ok r =>
      hasMore r = (0 <? List.length (jobs r)) && (page r * 20 <? totalCount r)%Z
      /\ page r = page_or_1 (params_page params)
  | Exn _ => True
  end.
Proof.
  unfold naukri_searchJobs, require_page, catch, bind, ret, throw, lift, ask,
    emit, log, upd_trace.
  destruct w as [[|] ? ? ? ? ? ? ? ?]; cbn; [|exact I].
  destruct (e_search e) as [g l js c]; cbn.
  destruct g; cbn; [|exact I].
  destruct l; cbn; [|split; reflexivity].
  destruct js; cbn; [|exact I].
  destruct c; cbn; [|exact I].
  split; reflexivity.
Qed.

(** ** The queue loop *)

(** Once [shouldStop] is set, the loop condition fails and the loop
    returns the counts unchanged. *)
Lemma queue_loop_stopped source jobs max fuel i r e w :
  ws_shouldStop w = true ->
  queue_loop source jobs max fuel i r e w = (Ok r, w).
Proof.
  intros H. destruct fuel; cbn; [reflexivity|].
  rewrite H, andb_false_r. reflexivity.
Qed.

(** Without a [stop()] before it starts, the loop from index [i] attempts
    [attempts_from] jobs, in order, and adds one count per attempt. *)
Lemma queue_loop_run source jobs max fuel : forall i r e w,
  i + fuel = max -> ws_shouldStop w = false ->
  exists r' w', queue_loop source jobs max fuel i r e w = (Ok r', w') /\
    total r' = total r + attempts_from e max fuel i /\
    ws_calls w' = ws_calls w ++ jobs_slice jobs i (attempts_from e max fuel i).
Proof.
  induction fuel as [|f IH]; intros i r e w Hi Hs.
  - exists r, w. cbn. rewrite app_nil_r. auto.
  - assert (Lt : (i <? max) = true) by (apply Nat.ltb_lt; lia).
    cbn [queue_loop attempts_from]. rewrite Lt.
    unfold bind, get, emit, modify, catch, ask, ret. cbv beta iota.
    rewrite Hs. cbn [andb negb].
    set (job := nth i jobs undefined_job).
    pose proof (mgr_applyToJob_frame source job e (upd_trace (EvQueueProgress (i + 1) max) w)) as F.
    cbv zeta in F.
    destruct (mgr_applyToJob source job e (upd_trace (EvQueueProgress (i + 1) max) w)) as [o w2].
    cbn in F. destruct F as (C2 & _ & _ & _ & S2 & _).
    assert (Step : exists r1 w3,
      (let (o0, w'0) :=
         match o with
         | Ok a => (Ok (classify a r), upd_trace (EvProgress i) w2)
         | Exn s => (Exn s, w2)
         end in
       match o0 with
       | Ok a => (Ok a, w'0)
       | Exn _ => (Ok (count_failed r), upd_trace (EvError (Some job)) w'0)
       end) = (Ok r1, w3) /\ total r1 = S (total r) /\
      ws_calls w3 = ws_calls w ++ [job] /\ ws_shouldStop w3 = false).
    { destruct o as [a|m]; cbn.
      - do 2 eexists. split; [reflexivity|]. cbn. rewrite C2, S2, Hs.
        split; [|auto]. unfold classify, total.
        destruct (success a); [cbn; lia|].
        destruct (alreadyApplied a) as [[|]|]; cbn; lia.
      - do 2 eexists. split; [reflexivity|]. cbn. rewrite C2, S2, Hs.
        unfold count_failed, total. cbn. split; [lia|auto]. }
    destruct Step as (r1 & w3 & E1 & T1 & C3 & S3). rewrite E1. clear E1.
    unfold external_stop, stop, bind, modify, emit, ret.
    destruct (e_stop_in_attempt e i) eqn:SA; cbn -[queue_loop attempts_from Nat.ltb].
    + rewrite andb_false_r. cbv beta iota.
      exists r1. eexists. split; [apply queue_loop_stopped; reflexivity|]. cbn. split; [lia|].
      rewrite C3. reflexivity.
    + rewrite S3. cbn [negb]. rewrite andb_true_r.
      destruct (i + 1 <? max) eqn:L2.
      * destruct (e_stop_in_delay e i) eqn:SD; cbn -[queue_loop attempts_from Nat.ltb].
        -- exists r1. eexists. split; [apply queue_loop_stopped; reflexivity|]. cbn. split; [lia|].
           rewrite C3. reflexivity.
        -- destruct (IH (S i) r1 e (upd_trace (EvDelay (ws_delayBetween w3)) w3))
             as (r' & w' & E & T & C); [lia|cbn; exact S3|].
           rewrite E. exists r', w'. split; [reflexivity|].
           split; [rewrite T, T1; lia|].
           rewrite C. cbn. rewrite C3, <- app_assoc. reflexivity.
      * apply Nat.ltb_ge in L2. assert (f = 0) by lia. subst f.
        cbn. exists r1, w3. split; [reflexivity|].
        assert (K : (if e_stop_in_delay e i then 1 else 1) = 1)
          by (destruct (e_stop_in_delay e i); reflexivity).
        rewrite K. split; [lia|]. rewrite C3. reflexivity.
Qed.

Lemma attempts_from_le e max fuel : forall i, attempts_from e max fuel i <= fuel.
Proof.
  induction fuel as [|f IH]; intros i; cbn -[Nat.ltb]; [lia|].
  destruct (i <? max); [|lia].
  destruct (e_stop_in_attempt e i || e_stop_in_delay e i); [lia|].
  specialize (IH (S i)). lia.
Qed.

Lemma attempts_from_value e max fuel : forall i k,
  i + fuel = max -> k <= fuel ->
  (forall j, i <= j -> j + 1 < i + k ->
     e_stop_in_attempt e j = false /\ e_stop_in_delay e j = false) ->
  k = fuel \/ (0 < k /\ e_stop_in_attempt e (i + k - 1) || e_stop_in_delay e (i + k - 1) = true) ->
  attempts_from e max fuel i = k.
Proof.
  induction fuel as [|f IH]; intros i k Hi Hk Hno Hend; cbn -[Nat.ltb]; [lia|].
  assert (Lt : (i <? max) = true) by (apply Nat.ltb_lt; lia). rewrite Lt.
  destruct k as [|k]; [destruct Hend as [H|[H _]]; lia|].
  destruct (e_stop_in_attempt e i || e_stop_in_delay e i) eqn:Si.
  - destruct k as [|k]; [reflexivity|].
    destruct (Hno i) as [A D]; [lia|lia|]. rewrite A, D in Si. discriminate.
  - f_equal. apply IH; [lia|lia| |].
    + intros j Hj1 Hj2. apply Hno; lia.
    + destruct Hend as [H|[H1 H2]]; [left; lia|].
      destruct k as [|k].
      * replace (i + 1 - 1) with i in H2 by lia. congruence.
      * right. split; [lia|]. replace (S i + S k - 1) with (i + S (S k) - 1) by lia.
        exact H2.
Qed.

Lemma skipn_nth_cons (jobs : list Job) : forall i, i < List.length jobs ->
  skipn i jobs = nth i jobs undefined_job :: skipn (S i) jobs.
Proof.
  induction jobs as [|j js IH]; intros i H; cbn in H; [lia|].
  destruct i; [reflexivity|]. cbn. apply IH. lia.
Qed.

Lemma jobs_slice_firstn (jobs : list Job) k : forall i,
  i + k <= List.length jobs ->
  jobs_slice jobs i k = firstn k (skipn i jobs).
Proof.
  induction k as [|k IH]; intros i H; [reflexivity|].
  unfold jobs_slice in *. cbn [seq map].
  rewrite (skipn_nth_cons jobs i) by lia. cbn [firstn].
  f_equal. apply IH. lia.
Qed.

Lemma processJobQueue_run source jobs e w :
  let m := Nat.min (List.length jobs) (ws_maxApplications w) in
  let k := attempts_from e m m 0 in
  exists c w', processJobQueue source jobs e w = (Ok c, w') /\
    total c = k /\ k <= m /\
    ws_calls w' = ws_calls w ++ firstn k jobs /\
    ws_isRunning w' = false /\
    exists pre, ws_trace w' = pre ++ [EvSessionComplete (applied c) (failed c)].
Proof.
  cbv zeta.
  unfold processJobQueue, modify, bind, get, emit, ret.
  cbn -[queue_loop attempts_from Nat.min].
  set (m := Nat.min (List.length jobs) (ws_maxApplications w)).
  destruct (queue_loop_run source jobs m m 0 (mkQueueResult 0 0 0) e
              (set_shouldStop false (set_isRunning true w)))
    as (c & w' & E & T & C); [lia|reflexivity|].
  rewrite E. cbn -[attempts_from].
  exists c. eexists. split; [reflexivity|].
  pose proof (attempts_from_le e m m 0) as Le.
  split; [exact T|]. split; [exact Le|].
  split; [|split; [reflexivity|eexists; reflexivity]].
  cbn in C |- *. rewrite C, jobs_slice_firstn; [reflexivity|].
  assert (m <= List.length jobs) by apply Nat.le_min_l. lia.
Qed.

Lemma queue_loop_steps source jobs max fuel : forall i r e w,
  i + fuel = max -> ws_shouldStop w = false ->
  (forall j, e_stop_in_attempt e j = false /\ e_stop_in_delay e j = false) ->
  exists steps r' w',
    queue_loop source jobs max fuel i r e w = (Ok r', w') /\
    List.length steps = fuel /\
    attempts_chain source jobs e max i w steps /\
    r' = fold_left count_attempt (map step_outcome steps) r.
Proof.
  induction fuel as [|f IH]; intros i r e w Hi Hs Hno.
  - exists [], r, w. cbn. auto.
  - assert (Lt : (i <? max) = true) by (apply Nat.ltb_lt; lia).
    cbn [queue_loop]. rewrite Lt.
    unfold bind, get, emit, modify, catch, ask, ret. cbv beta iota.
    rewrite Hs. cbn [andb negb].
    set (job := nth i jobs undefined_job).
    set (w0 := upd_trace (EvQueueProgress (i + 1) max) w).
    pose proof (mgr_applyToJob_frame source job e w0) as F.
    cbv zeta in F.
    destruct (mgr_applyToJob source job e w0) as [o w2] eqn:A.
    cbn in F. destruct F as (_ & _ & _ & _ & S2 & _ & _).
    assert (Step :
      (let (o0, w'0) :=
         match o with
         | Ok a => (Ok (classify a r), upd_trace (EvProgress i) w2)
         | Exn s => (Exn s, w2)
         end in
       match o0 with
       | Ok a => (Ok a, w'0)
       | Exn _ => (Ok (count_failed r), upd_trace (EvError (Some job)) w'0)
       end) = (Ok (count_attempt r o), after_attempt i job o w2))
      by (destruct o; reflexivity).
    rewrite Step. clear Step.
    assert (S3 : ws_shouldStop (after_attempt i job o w2) = false)
      by (destruct o; cbn; rewrite S2; exact Hs).
    destruct (Hno i) as [SA SD].
    unfold external_stop. rewrite SA, SD. unfold ret.
    cbn -[queue_loop Nat.ltb after_attempt]. rewrite S3. cbn [negb].
    rewrite andb_true_r.
    destruct (i + 1 <? max) eqn:L2.
    + set (w3 := upd_trace (EvDelay (ws_delayBetween (after_attempt i job o w2)))
                   (after_attempt i job o w2)).
      destruct (IH (S i) (count_attempt r o) e w3) as (steps & r' & w' & E & L & C & R);
        [lia| |exact Hno|].
      { unfold w3. cbn. exact S3. }
      exists ((w0, o, w2) :: steps), r', w'.
      split; [exact E|]. split; [cbn; lia|]. split; [|exact R].
      cbn -[upd_trace]. split; [reflexivity|]. split; [exact A|].
      assert (D : ws_delayBetween (after_attempt i job o w2) = ws_delayBetween w2)
        by (destruct o; reflexivity).
      unfold w3 in C. rewrite D in C. exact C.
    + apply Nat.ltb_ge in L2. assert (f = 0) by lia. subst f.
      exists [(w0, o, w2)], (count_attempt r o), (after_attempt i job o w2).
      split; [reflexivity|]. split; [reflexivity|].
      split; [cbn; auto|reflexivity].
Qed.

(** C2.  With no [stop()] during the run, processJobQueue over [N] jobs
    with cap [C] attempts exactly the first [min(N, C)] jobs, in order, and
    returns counts with [applied + failed + skipped = min(N, C)].  The
    counts are those of the attempts the loop made ([attempts_chain]: the
    [i]-th calls applyToJob on [jobs[i]] from the world the previous one
    left): each attempt adds one to exactly one count, [classify] on a
    returned result and [failed] for a thrown exception ([count_attempt]). *)
Theorem processJobQueue_full_run (source : string) (jobs : list Job) (e : Env)
    (w : World) :
  (forall i, e_stop_in_attempt e i = false /\ e_stop_in_delay e i = false) ->
  let m := Nat.min (List.length jobs) (ws_maxApplications w) in
  exists c w', processJobQueue source jobs e w = (Ok c, w') /\
    applied c + failed c + skipped c = m /\
    ws_calls w' = ws_calls w ++ firstn m jobs /\
    exists steps,
      List.length steps = m /\
      attempts_chain source jobs e m 0
        (set_shouldStop false (set_isRunning true w)) steps /\
      c = fold_left count_attempt (map step_outcome steps) (mkQueueResult 0 0 0).
Proof.
  intros Hno. cbv zeta.
  set (m := Nat.min (List.length jobs) (ws_maxApplications w)).
  destruct (processJobQueue_run source jobs e w)
    as (c & w' & E & T & _ & C & _).
  fold m in E, T, C.
  assert (K : attempts_from e m m 0 = m)
    by (apply attempts_from_value; [lia|lia|intros j _ _; apply Hno|left; reflexivity]).
  rewrite K in T, C.
  destruct (queue_loop_steps source jobs m m 0 (mkQueueResult 0 0 0) e
              (set_shouldStop false (set_isRunning true w)))
    as (steps & r' & w'' & E2 & L & Ch & R); [lia|reflexivity|exact Hno|].
  assert (P : fst (processJobQueue source jobs e w) = Ok r').
  { unfold processJobQueue, modify, bind, get, emit, ret.
    cbn -[queue_loop Nat.min]. fold m. rewrite E2. reflexivity. }
  rewrite E in P. cbn in P. injection P as ->.
  exists r', w'. unfold total in T.
  split; [exact E|]. split; [exact T|]. split; [exact C|].
  exists steps. auto.
Qed.

Lemma processJobQueue_full_run_witness :
  (forall i, e_stop_in_attempt env_all_apply i = false /\
             e_stop_in_delay env_all_apply i = false) /\
  exists c w', processJobQueue "naukri" [job1; job2; job3] env_all_apply world0
               = (Ok c, w') /\
    applied c + failed c + skipped c = 3 /\
    ws_calls w' = [job1; job2; job3] /\
    exists steps,
      List.length steps = 3 /\
      attempts_chain "naukri" [job1; job2; job3] env_all_apply 3 0
        (set_shouldStop false (set_isRunning true world0)) steps /\
      c = fold_left count_attempt (map step_outcome steps) (mkQueueResult 0 0 0).
Proof.
  assert (Hno : forall i, e_stop_in_attempt env_all_apply i = false /\
                          e_stop_in_delay env_all_apply i = false)
    by (intros; split; reflexivity).
  split; [exact Hno|].
  exact (processJobQueue_full_run "naukri" [job1; job2; job3] env_all_apply
           world0 Hno).
Defined.

(** C6.  If the first [stop()] runs during attempt [k] or during the delay
    after it (jobs [0..k-2] ran without one), or no [stop()] comes before
    the cap [k = min(N, C)] is reached, then exactly the first [k] jobs are
    attempted: a [stop()] during the delay after job [k] gives [k], and one
    during the in-flight attempt of job [k+1] gives [k+1] because that
    attempt completes.  In both cases the loop then exits, [isRunning] is
    false and the last event is [onSessionComplete] with the final counts. *)
Theorem processJobQueue_stop (source : string) (jobs : list Job) (e : Env)
    (w : World) (k : nat) :
  k <= Nat.min (List.length jobs) (ws_maxApplications w) ->
  (forall j, j + 1 < k ->
     e_stop_in_attempt e j = false /\ e_stop_in_delay e j = false) ->
  k = Nat.min (List.length jobs) (ws_maxApplications w) \/
  (0 < k /\ e_stop_in_attempt e (k - 1) || e_stop_in_delay e (k - 1) = true) ->
  exists c w', processJobQueue source jobs e w = (Ok c, w') /\
    applied c + failed c + skipped c = k /\
    ws_calls w' = ws_calls w ++ firstn k jobs /\
    ws_isRunning w' = false /\
    exists pre, ws_trace w' = pre ++ [EvSessionComplete (applied c) (failed c)].
Proof.
  intros Hk Hno Hend.
  destruct (processJobQueue_run source jobs e w)
    as (c & w' & E & T & _ & C & R & Tr).
  assert (K : attempts_from e (Nat.min (List.length jobs) (ws_maxApplications w))
               (Nat.min (List.length jobs) (ws_maxApplications w)) 0 = k)
    by (apply attempts_from_value; [lia|exact Hk|intros j _ Hj; apply Hno; lia|exact Hend]).
  rewrite K in T, C.
  exists c, w'. unfold total in T. auto.
Qed.

Lemma processJobQueue_stop_witness :
  exists c w',
    processJobQueue "naukri" [job1; job2; job3] env_stop_after_first world0
      = (Ok c, w') /\
    applied c + failed c + skipped c = 1 /\
    ws_calls w' = [job1] /\
    ws_isRunning w' = false /\
    exists pre, ws_trace w' = pre ++ [EvSessionComplete (applied c) (failed c)].
Proof.
  apply (processJobQueue_stop "naukri" [job1; job2; job3] env_stop_after_first
           world0 1).
  - cbn. lia.
  - intros j Hj. lia.
  - right. split; [lia|reflexivity].
Defined.

(** Every attempt of a queue without a profile throws; each one is counted
    as failed. *)
Example scenario_no_profile :
  fst (processJobQueue "naukri" [job1; job2] env_all_apply world_no_profile)
  = Ok (mkQueueResult 0 2 0).
Proof. vm_compute. reflexivity. Qed.

(** * Properties of the code around the claims *)

Open Scope list_scope.

Lemma string_length_append (s t : string) :
  String.length (s ++ t)%string = String.length s + String.length t.
Proof. induction s; cbn; auto. Qed.

Lemma substring_0_length (n : nat) (s : string) :
  n <= String.length s -> String.length (substring 0 n s) = n.
Proof.
  revert n; induction s as [|c s IH]; intros n H; destruct n; cbn in *;
    try reflexivity; try lia.
  rewrite IH; lia.
Qed.

Lemma substring_0_prefix (n : nat) (s : string) :
  String.prefix (substring 0 n s) s = true.
Proof.
  revert n; induction s as [|c s IH]; intros n; destruct n; cbn; auto.
  destruct (ascii_dec c c); [apply IH | congruence].
Qed.

(** A string no longer than the limit comes back unchanged, whatever the
    limit; with a limit of at least 3, a longer one is cut to exactly the
    limit: its first [maxLength - 3] characters followed by ["..."]. *)
Theorem truncate_fits (str : string) (maxLength : Z) :
  ((Z.of_nat (String.length str) <= maxLength)%Z ->
   truncate str maxLength = str) /\
  ((3 <= maxLength)%Z -> (maxLength < Z.of_nat (String.length str))%Z ->
   Z.of_nat (String.length (truncate str maxLength)) = maxLength /\
   exists pre, truncate str maxLength = (pre ++ "...")%string /\
               String.prefix pre str = true /\
               Z.of_nat (String.length pre) = (maxLength - 3)%Z).
Proof.
  unfold truncate. split.
  - intros L. apply Z.leb_le in L. rewrite L. reflexivity.
  - intros H L. apply Z.leb_gt in L. rewrite L.
    assert (E : slice_end (String.length str) (maxLength - 3) =
                Z.to_nat (maxLength - 3)).
    { unfold slice_end. destruct (maxLength - 3 <? 0)%Z eqn:N.
      - apply Z.ltb_lt in N. lia.
      - apply Z.ltb_ge in N. lia. }
    rewrite E. split.
    + rewrite string_length_append, substring_0_length by lia. cbn. lia.
    + eexists. split; [reflexivity|]. split; [apply substring_0_prefix|].
      rewrite substring_0_length by lia. lia.
Qed.

Lemma truncate_fits_witness :
  truncate "Jo" 2 = "Jo" /\ truncate "JobSlave" 5 = "Jo..." .
Proof.
  split; [apply (proj1 (truncate_fits "Jo" 2)); cbn; lia|].
  destruct (proj2 (truncate_fits "JobSlave" 5) ltac:(lia) ltac:(cbn; lia))
    as [_ (pre & E & P & Lp)].
  rewrite E. destruct pre as [|c1 [|c2 [|c3 pre]]]; cbn in Lp; try lia.
  cbn in P. destruct (ascii_dec c1 "J"); [|discriminate].
  destruct (ascii_dec c2 "o"); [|discriminate]. subst. reflexivity.
Defined.

(** With a limit below 3, a string longer than the limit comes back longer
    than the limit: the slice end [maxLength - 3] is negative, so it counts
    from the end of the string, and ["..."] alone already has 3 characters. *)
Theorem truncate_small_limit_overflows (str : string) (maxLength : Z) :
  (maxLength < 3)%Z -> (maxLength < Z.of_nat (String.length str))%Z ->
  (maxLength < Z.of_nat (String.length (truncate str maxLength)))%Z /\
  Z.of_nat (String.length (truncate str maxLength)) =
    (Z.max (Z.of_nat (String.length str) + maxLength - 3) 0 + 3)%Z.
Proof.
  intros H1 H2. unfold truncate.
  destruct (Z.of_nat (String.length str) <=? maxLength)%Z eqn:L;
    [apply Z.leb_le in L; lia|].
  unfold slice_end. destruct (maxLength - 3 <? 0)%Z eqn:N; [|apply Z.ltb_ge in N; lia].
  apply Z.leb_gt in L.
  rewrite string_length_append, substring_0_length by lia. cbn. lia.
Qed.

Lemma truncate_small_limit_overflows_witness :
  (0 < 3)%Z /\ (0 < 5)%Z /\ truncate "hello" 0 = "he...".
Proof.
  split; [lia|]. split; [lia|].
  pose proof (truncate_small_limit_overflows "hello" 0 ltac:(lia) ltac:(cbn; lia)).
  vm_compute. reflexivity.
Defined.

(** A notice period outside the six known keys, and not a name an object
    literal inherits from [Object.prototype], is returned as it is. *)
Theorem noticePeriodToText_unknown (period : string) :
  ~ In period (map fst notice_period_map) ->
  ~ In period ("__proto__" :: object_prototype_function_names) ->
  noticePeriodToText period = JSString period.
Proof.
  intros H1 H2. unfold noticePeriodToText, literal_lookup.
  destruct (find (fun kv => String.eqb (fst kv) period) notice_period_map)
    as [kv|] eqn:F.
  - apply find_some in F as [F1 F2]. apply String.eqb_eq in F2.
    exfalso. apply H1. subst period. apply in_map. exact F1.
  - destruct (existsb (String.eqb period) object_prototype_function_names) eqn:X.
    + apply existsb_exists in X as [y [Hy Ey]]. apply String.eqb_eq in Ey.
      subst y. exfalso. apply H2. right. exact Hy.
    + destruct (String.eqb period "__proto__") eqn:P.
      * apply String.eqb_eq in P. subst. exfalso. apply H2. left. reflexivity.
      * reflexivity.
Qed.

Lemma lower_char_not_upper (c : ascii) :
  ~ (65 <= nat_of_ascii (lower_char c) <= 90).
Proof.
  unfold lower_char.
  destruct ((65 <=? nat_of_ascii c) && (nat_of_ascii c <=? 90)) eqn:U.
  - apply andb_true_iff in U as [U1 U2].
    apply Nat.leb_le in U1. apply Nat.leb_le in U2.
    rewrite nat_ascii_embedding by lia. lia.
  - intros [H1 H2]. apply Nat.leb_le in H1. apply Nat.leb_le in H2.
    rewrite H1, H2 in U. discriminate.
Qed.

Lemma list_ascii_toLowerCase (s : string) :
  list_ascii_of_string (toLowerCase s) = map lower_char (list_ascii_of_string s).
Proof. induction s; cbn; [reflexivity|]. rewrite IHs. reflexivity. Qed.

Lemma dash_runs_chars (b : bool) (l : list ascii) (c : ascii) :
  In c (dash_runs b l) -> c = "-"%char \/ (In c l /\ is_js_space c = false).
Proof.
  revert b; induction l as [|d l IH]; intros b H; cbn [dash_runs In] in H;
    [contradiction|].
  assert (Tail : In c (dash_runs true l) \/ In c (dash_runs false l) ->
                 c = "-"%char \/ (In c (d :: l) /\ is_js_space c = false)).
  { intros [T|T]; apply IH in T as [T|[T1 T2]]; auto; right; split; auto;
      right; exact T1. }
  destruct (is_js_space d) eqn:Sd; [destruct b|]; cbn [In] in H.
  - apply Tail. left. exact H.
  - destruct H as [<-|H]; [left; reflexivity|]. apply Tail. left. exact H.
  - destruct H as [<-|H]; [right; split; [left; reflexivity|exact Sd]|].
    apply Tail. right. exact H.
Qed.

(** For keywords and locations written in ASCII (the strings of this
    model), the keyword and location parts of the search URL hold no ASCII
    white space and no upper-case letter [A-Z]. *)
Theorem slug_chars (xs : list string) (c : ascii) :
  In c (list_ascii_of_string (slug xs)) ->
  is_js_space c = false /\ ~ (65 <= nat_of_ascii c <= 90).
Proof.
  unfold slug, replace_spaces_dash.
  rewrite list_ascii_of_string_of_list_ascii. intros H.
  apply dash_runs_chars in H as [->|[H S]].
  - split; [reflexivity|]. cbn. lia.
  - split; [exact S|]. rewrite list_ascii_toLowerCase in H.
    apply in_map_iff in H as [d [<- _]]. apply lower_char_not_upper.
Qed.

Lemma string_length_append_gt (s t : string) :
  t <> EmptyString -> (s ++ t)%string <> s.
Proof.
  intros Ht E. apply (f_equal String.length) in E.
  rewrite string_length_append in E. destruct t; [congruence|]. cbn in E. lia.
Qed.

(** The URL has no query string exactly when no filter is set: no
    [experienceMin], a [salaryMin] of 0 or none, an empty or absent
    [postedWithin], and no page above 1. *)
Theorem buildSearchUrl_no_query (params : JobSearchParams) (f : SearchFilters) :
  buildSearchUrl params f = search_path params <->
  experienceMin f = None /\
  (salaryMin f = None \/ salaryMin f = Some 0%Z) /\
  (postedWithin f = None \/ postedWithin f = Some "") /\
  (forall pg, params_page params = Some pg -> (pg <= 1)%Z).
Proof.
  unfold buildSearchUrl.
  assert (Q : search_query_params params f = [] <->
              experienceMin f = None /\
              (salaryMin f = None \/ salaryMin f = Some 0%Z) /\
              (postedWithin f = None \/ postedWithin f = Some "") /\
              (forall pg, params_page params = Some pg -> (pg <= 1)%Z)).
  { unfold search_query_params.
    destruct params as [kw loc [pg|]]; destruct f as [[ex|] [sal|] [pw|]]; cbn;
    repeat match goal with
    | |- context [if ?b then _ else _] => destruct b eqn:?
    end;
    repeat match goal with
    | H : (_ =? _)%Z = true |- _ => apply Z.eqb_eq in H
    | H : (_ =? _)%Z = false |- _ => apply Z.eqb_neq in H
    | H : (_ <? _)%Z = true |- _ => apply Z.ltb_lt in H
    | H : (_ <? _)%Z = false |- _ => apply Z.ltb_ge in H
    | H : String.eqb _ _ = true |- _ => apply String.eqb_eq in H
    | H : String.eqb _ _ = false |- _ => apply String.eqb_neq in H
    end; subst;
    split; intros H; try discriminate;
    try (destruct H as (H1 & H2 & H3 & H4));
    repeat split; try reflexivity; try congruence;
    try (intros ? E; injection E as <-; lia);
    try (intros ? E; discriminate E);
    try (left; reflexivity); try (right; reflexivity);
    try (destruct H1; congruence); try (destruct H2; congruence);
    try (destruct H3; congruence);
    try (exfalso; specialize (H4 _ eq_refl); lia);
    try (apply app_eq_nil in H; destruct H; discriminate);
    try (symmetry in H; apply app_cons_not_nil in H; contradiction). }
  rewrite <- Q.
  destruct (search_query_params params f) as [|q qs]; cbn -[search_path join].
  - tauto.
  - split; [intros E; exfalso; revert E; apply string_length_append_gt; discriminate|].
    discriminate.
Qed.

Lemma jobid_match_nonempty (s m : string) :
  jobid_match s = Some m -> m <> "".
Proof.
  induction s as [|c s IH]; cbn [jobid_match]; intros H.
  - cbn in H. discriminate.
  - destruct (negb (String.eqb _ "")) eqn:N.
    + injection H as <-. apply negb_true_iff, String.eqb_neq in N. exact N.
    + apply IH. exact H.
Qed.

Lemma nonempty_prefixed (a s : string) : a <> "" -> (a ++ s)%string <> "".
Proof. destruct a; [congruence|discriminate]. Qed.

Lemma card_jobId_nonempty (now : Z) (index : nat) (card : JobCard) :
  card_jobId now index card <> "".
Proof.
  unfold card_jobId.
  destruct (card_data_job_id card) as [d|];
    [destruct (negb (String.eqb d "")) eqn:N;
     [apply negb_true_iff, String.eqb_neq in N; exact N|]|];
    (destruct (option_map jobid_match (card_first_href card)) as [[m|]|] eqn:E;
     [destruct (card_first_href card); cbn in E; [|discriminate];
      injection E as E; apply (jobid_match_nonempty _ _ E)
     | discriminate | discriminate]).
Qed.

Lemma text_or_nonempty (t : option string) (dflt : string) :
  dflt <> "" -> text_or t dflt <> "".
Proof.
  intros H. unfold text_or. destruct t as [x|]; [|exact H].
  destruct (String.eqb (trim x) "") eqn:E; [exact H|].
  apply String.eqb_neq. exact E.
Qed.

Lemma prefix_append (a s : string) : String.prefix a (a ++ s) = true.
Proof.
  induction a as [|c a IH]; cbn; [destruct s; reflexivity|].
  destruct (ascii_dec c c); [exact IH|congruence].
Qed.

(** Every job read from the result cards has the id ["naukri-" ++
    externalId] with a non-empty [externalId], a non-empty title and company
    (["Unknown Title"], ["Unknown Company"] when the card has none), and an
    absolute URL: a relative link is prefixed with the Naukri origin. *)
Theorem extractJobListings_shape (now : nat -> Z) (cards : list JobCard)
    (j : Job) :
  In j (extractJobListings_dom now cards) ->
  job_id j = ("naukri-" ++ externalId j)%string /\ externalId j <> "" /\
  title j <> "" /\ company j <> "" /\ startsWith (jobUrl j) "http" = true.
Proof.
  unfold extractJobListings_dom. generalize 0 as index.
  induction cards as [|card cards IH]; intros index H; cbn in H; [contradiction|].
  destruct H as [<-|H]; [|exact (IH _ H)].
  unfold card_to_job; cbn -[startsWith].
  split; [reflexivity|]. split; [apply card_jobId_nonempty|].
  split; [apply text_or_nonempty; discriminate|].
  split; [apply text_or_nonempty; discriminate|].
  match goal with
  | |- startsWith (if startsWith ?u "http" then _ else _) "http" = true =>
      destruct (startsWith u "http") eqn:U; [exact U|]
  end.
  unfold startsWith. apply (prefix_append "http").
Qed.

Lemma dec_digits_spec (fuel n : nat) :
  n < fuel ->
  dec_digits fuel n <> [] /\
  Forall (fun c => is_digit c = true) (dec_digits fuel n) /\
  digits_value (dec_digits fuel n) = n.
Proof.
  revert n; induction fuel as [|fuel IH]; intros n H; [lia|].
  cbn [dec_digits].
  assert (D : forall d, d < 10 -> is_digit (digit_char d) = true /\
                                  nat_of_ascii (digit_char d) - 48 = d).
  { intros d Hd. unfold is_digit, digit_char.
    rewrite nat_ascii_embedding by lia.
    split; [apply andb_true_iff; split; apply Nat.leb_le; lia | lia]. }
  destruct (n <? 10) eqn:L.
  - apply Nat.ltb_lt in L. destruct (D n L) as [D1 D2].
    split; [discriminate|]. split; [constructor; auto|].
    unfold digits_value. cbn [fold_left]. rewrite D2. lia.
  - apply Nat.ltb_ge in L.
    destruct (IH (n / 10)) as (N1 & N2 & N3).
    { assert (n / 10 < n) by (apply Nat.div_lt; lia). lia. }
    destruct (D (n mod 10)) as [D1 D2]; [apply Nat.mod_upper_bound; lia|].
    split; [destruct (dec_digits fuel (n / 10)); [congruence|discriminate]|].
    split; [apply Forall_app; split; [exact N2|constructor; auto]|].
    unfold digits_value in *. rewrite fold_left_app. rewrite N3. cbn [fold_left].
    rewrite D2. pose proof (Nat.div_mod n 10). lia.
Qed.

Lemma take_digits_l_all (l r : list ascii) :
  Forall (fun c => is_digit c = true) l ->
  (r = [] \/ exists c r', r = c :: r' /\ is_digit c = false) ->
  take_digits_l (l ++ r) = l.
Proof.
  intros F Hr. induction F as [|c l Hc F IH]; cbn.
  - destruct Hr as [->|(c & r' & -> & Hc)]; [reflexivity|]. cbn. rewrite Hc. reflexivity.
  - rewrite Hc, IH. reflexivity.
Qed.

Lemma digit_not_space (c : ascii) : is_digit c = true -> is_js_space c = false.
Proof.
  unfold is_digit, is_js_space. intros H.
  apply andb_true_iff in H as [H1 H2]. apply Nat.leb_le in H1. apply Nat.leb_le in H2.
  destruct (nat_of_ascii c =? 32) eqn:E1; [apply Nat.eqb_eq in E1; lia|].
  destruct (9 <=? nat_of_ascii c) eqn:E2; cbn; [|reflexivity].
  apply Nat.leb_gt. lia.
Qed.

(** [parseInt] reads back the index written into a question id. *)
Lemma parseInt10_question_index (n : nat) :
  parseInt10 (replace_first_qdash (question_id_string n)) = PNum false n.
Proof.
  unfold question_id_string, nat_to_dec.
  destruct (dec_digits_spec (S n) n ltac:(lia)) as (N1 & N2 & N3).
  set (ds := dec_digits (S n) n) in *.
  assert (R : replace_first_qdash ("q-" ++ string_of_list_ascii ds) =
              string_of_list_ascii ds).
  { cbn [replace_first_qdash String.append String.prefix].
    destruct (ascii_dec "q" "q"); [|congruence].
    destruct (ascii_dec "-" "-"); [|congruence].
    replace (String.prefix "" (string_of_list_ascii ds)) with true
      by (destruct (string_of_list_ascii ds); reflexivity).
    cbn [substring String.length].
    generalize (string_of_list_ascii ds). intros t.
    induction t as [|c t IH]; [reflexivity|]. cbn. f_equal. exact IH. }
  rewrite R. unfold parseInt10. rewrite list_ascii_of_string_of_list_ascii.
  destruct ds as [|c r] eqn:Eds; [congruence|].
  inversion N2 as [|? ? Hc Hr]; subst.
  cbn [drop_spaces]. rewrite (digit_not_space c Hc).
  assert (NS : Ascii.eqb c "-" = false /\ Ascii.eqb c "+" = false).
  { unfold is_digit in Hc. apply andb_true_iff in Hc as [H1 H2].
    apply Nat.leb_le in H1. apply Nat.leb_le in H2.
    split; apply Ascii.eqb_neq; intros ->; cbn in H1; lia. }
  destruct NS as [-> ->].
  unfold parse_digits.
  rewrite <- (app_nil_r (c :: r)), take_digits_l_all by (auto; constructor; auto).
  rewrite app_nil_r. reflexivity.
Qed.

Lemma questions_from_in (k : nat) (cs : list Container) (q : ScreeningQuestion) :
  In q (questions_from k cs) ->
  exists c, nth_error cs (sq_id q - k) = Some c /\ k <= sq_id q /\
            question_of_container (sq_id q) c = Some q.
Proof.
  revert k; induction cs as [|c cs IH]; intros k H; cbn in H; [contradiction|].
  destruct (question_of_container k c) as [q'|] eqn:Q.
  - destruct H as [<-|H].
    + assert (I : sq_id q' = k).
      { unfold question_of_container in Q.
        destruct (String.eqb (c_label c) ""); [discriminate|].
        injection Q as <-. reflexivity. }
      exists c. rewrite I, Nat.sub_diag. auto.
    + destruct (IH (S k) H) as (c' & E & L & Q').
      exists c'. replace (sq_id q - k) with (S (sq_id q - S k)) by lia. auto with arith.
  - destruct (IH (S k) H) as (c' & E & L & Q').
    exists c'. replace (sq_id q - k) with (S (sq_id q - S k)) by lia. auto with arith.
Qed.

(** The answer to a question goes into the container the question was read
    from: [fillScreeningAnswer] parses the index back out of the id
    [q-<index>] that [getScreeningQuestions] gave the question, and both
    page functions select the same list of containers. *)
Theorem fill_targets_question_container (cs : list DomContainer)
    (q : ScreeningQuestion) (answer : string) :
  In q (getScreeningQuestions_dom (map dc_question cs)) ->
  exists d, nth_error cs (sq_id q) = Some d /\
    sq_question q = c_label (dc_question d) /\
    fillScreeningAnswer_dom (question_id_string (sq_id q)) answer
      (map dc_fill cs) = fill_container answer (dc_fill d).
Proof.
  intros H. apply questions_from_in in H as (c & E & _ & Q).
  rewrite Nat.sub_0_r in E. rewrite nth_error_map in E.
  destruct (nth_error cs (sq_id q)) as [d|] eqn:Ed; [|discriminate].
  injection E as <-. exists d. split; [reflexivity|].
  split.
  - unfold question_of_container in Q.
    destruct (String.eqb (c_label (dc_question d)) ""); [discriminate|].
    injection Q as <-. reflexivity.
  - unfold fillScreeningAnswer_dom. rewrite parseInt10_question_index.
    cbn. rewrite nth_error_map, Ed. reflexivity.
Qed.

Lemma includes_empty (s : string) : includes s "" = true.
Proof. destruct s; reflexivity. Qed.

(** With an empty answer, a select gets its first option and every radio
    that has a label is clicked: every string includes the empty string. *)
Theorem fill_container_empty_answer (c : FillContainer) :
  f_text c = false -> f_number c = false ->
  (forall v t opts, f_select c = Some ((v, t) :: opts) ->
     fill_container "" c = FillSelect (Some v)) /\
  (f_select c = None -> 0 < List.length (f_radios c) ->
     fill_container "" c =
     FillRadios (filter (fun id => match f_label_for c id with
                                   | Some _ => true | None => false end)
                        (f_radios c))).
Proof.
  intros T N. unfold fill_container. rewrite T, N. split.
  - intros v t opts S. rewrite S. cbn [find snd fst toLowerCase].
    rewrite includes_empty. reflexivity.
  - intros S L. rewrite S. apply Nat.ltb_lt in L. rewrite L. f_equal.
    apply filter_ext. intros id. destruct (f_label_for c id); [|reflexivity].
    apply includes_empty.
Qed.

Definition fill_example : FillContainer :=
  mkFillContainer false false (Some [("", "Select"); ("30", "30 days")]) [] (fun _ => None).

Lemma fill_container_empty_answer_witness :
  f_text fill_example = false /\ f_number fill_example = false /\
  fill_container "" fill_example = FillSelect (Some "").
Proof.
  split; [reflexivity|]. split; [reflexivity|].
  destruct (fill_container_empty_answer fill_example eq_refl eq_refl) as [H _].
  exact (H "" "Select" [("30", "30 days")] eq_refl).
Defined.

Lemma catch_ext {A} (m1 m2 : M A) (h : string -> M A) e w :
  m1 e w = m2 e w -> catch m1 h e w = catch m2 h e w.
Proof. intros E. unfold catch. rewrite E. reflexivity. Qed.

Lemma first_clicked_firstn (sels : list (Outcome bool * Outcome unit)) :
  forall k rest, first_clicked sels = Some k ->
  first_clicked (firstn (S k) sels ++ rest) = Some k.
Proof.
  induction sels as [|[f c] sels IH]; intros k rest H; cbn in H; [discriminate|].
  destruct f as [[|]|m]; [destruct c as [[]|m]|..];
    [injection H as <-; reflexivity|..];
    (destruct (first_clicked sels) as [k'|] eqn:F; cbn in H; [|discriminate];
     injection H as <-; rewrite firstn_cons, <- app_comm_cons; cbn [first_clicked];
     rewrite (IH k' rest eq_refl);
     reflexivity).
Qed.

(** With the browser set up, [submitApplication] never throws, changes no
    state beyond its log events, and reports success exactly when one of
    the submit selectors was clicked and the success check that follows
    found success.  The selectors after the first clicked one are never
    tried: whatever [page.$] and [click] would do for them, the call gives
    the same result and the same world. *)
Theorem submitApplication_dom_result (sels : list (Outcome bool * Outcome unit))
    (check : Outcome bool) (e : Env) (w : World) :
  ws_page w = true ->
  submitApplication_dom sels check e w =
  (Ok (match first_clicked sels with
       | Some _ => match check with Ok b => b | Exn _ => false end
       | None => false
       end),
   mkWorld (ws_page w) (ws_state w) (ws_profile w) (ws_isRunning w)
     (ws_shouldStop w) (ws_maxApplications w) (ws_delayBetween w)
     (ws_calls w) (ws_trace w ++ submit_trace sels check)) /\
  (forall k rest, first_clicked sels = Some k ->
     submitApplication_dom (firstn (S k) sels ++ rest) check e w =
     submitApplication_dom sels check e w).
Proof.
  intros P.
  assert (L : forall sels w',
    catch (submit_loop sels check) (fun _ => log LError;; ret false) e w' =
    (Ok (match first_clicked sels with
         | Some _ => match check with Ok b => b | Exn _ => false end
         | None => false
         end),
     mkWorld (ws_page w') (ws_state w') (ws_profile w') (ws_isRunning w')
       (ws_shouldStop w') (ws_maxApplications w') (ws_delayBetween w')
       (ws_calls w') (ws_trace w' ++ submit_trace sels check))).
  { clear sels. intros sels. unfold submit_trace.
    induction sels as [|[found click] rest IH]; intros w'.
    - destruct w'. cbn. rewrite app_nil_r. reflexivity.
    - assert (Skip : (found, click) <> (Ok true, Ok tt) ->
                     submit_loop ((found, click) :: rest) check e w' =
                     submit_loop rest check e w' /\
                     first_clicked ((found, click) :: rest) =
                     option_map S (first_clicked rest)).
      { intros Ne. destruct found as [[|]|m]; [destruct click as [[]|m]|..];
          [congruence|split; reflexivity..]. }
      destruct found as [[|]|m]; [destruct click as [[]|m]|..].
      1: { unfold catch. cbn. unfold log, emit, modify. destruct check as [b|m]; cbn.
        - reflexivity.
        - unfold upd_trace. cbn. rewrite <- app_assoc. reflexivity. }
      all: destruct (Skip ltac:(congruence)) as [E1 E2];
          rewrite (catch_ext _ _ _ _ _ E1), IH, E2;
          destruct (first_clicked rest); reflexivity. }
  assert (Top : forall sels, submitApplication_dom sels check e w =
    catch (submit_loop sels check) (fun _ => log LError;; ret false) e w).
  { intros s. unfold submitApplication_dom, require_page. unfold bind at 1 2, get.
    rewrite P. reflexivity. }
  split; [rewrite Top; apply L|].
  intros k rest F. rewrite !Top, !L. unfold submit_trace.
  rewrite (first_clicked_firstn sels k rest F), F. reflexivity.
Qed.

Lemma noticePeriodToText_unknown_witness :
  noticePeriodToText "2_weeks" = JSString "2_weeks".
Proof.
  apply noticePeriodToText_unknown;
    intros H; vm_compute in H; repeat (destruct H as [H|H]; [discriminate|]);
    exact H.
Defined.

Lemma slug_chars_witness :
  In "r"%char (list_ascii_of_string (slug ["React  Developer"])) /\
  is_js_space "r"%char = false /\ ~ (65 <= nat_of_ascii "r"%char <= 90).
Proof.
  assert (H : In "r"%char (list_ascii_of_string (slug ["React  Developer"])))
    by (vm_compute; left; reflexivity).
  split; [exact H|]. exact (slug_chars _ _ H).
Defined.

Definition card_example : JobCard :=
  mkCard None (Some "https://www.naukri.com/apply?jobid=123456") (Some "React Developer")
    (Some "Acme") (Some "/job-listings-react-developer-123456") None.

Lemma extractJobListings_shape_witness :
  In (mkJob "naukri-123456" "123456" "React Developer" "Acme" ""
        "https://www.naukri.com/job-listings-react-developer-123456")
     (extractJobListings_dom (fun _ => 7%Z) [card_example]) /\
  startsWith "https://www.naukri.com/job-listings-react-developer-123456" "http" = true.
Proof.
  assert (H : In (mkJob "naukri-123456" "123456" "React Developer" "Acme" ""
        "https://www.naukri.com/job-listings-react-developer-123456")
     (extractJobListings_dom (fun _ => 7%Z) [card_example]))
    by (vm_compute; left; reflexivity).
  split; [exact H|].
  exact (proj2 (proj2 (proj2 (proj2 (extractJobListings_shape _ _ _ H))))).
Defined.

Definition fill_select_radio : FillContainer :=
  mkFillContainer false false (Some [("30", "30 days")]) ["r1"]
    (fun id => if String.eqb id "r1" then Some "Immediate" else None).

Lemma fill_targets_question_container_witness :
  In (mkQuestion 0 "Notice period" QRadio (Some ["30 days"; "Immediate"]) true None)
     (getScreeningQuestions_dom
        (map dc_question [mkDomContainer container_select_radio fill_select_radio])) /\
  fillScreeningAnswer_dom "q-0" "30"
    (map dc_fill [mkDomContainer container_select_radio fill_select_radio]) =
  FillSelect (Some "30").
Proof.
  assert (H : In (mkQuestion 0 "Notice period" QRadio (Some ["30 days"; "Immediate"]) true None)
     (getScreeningQuestions_dom
        (map dc_question [mkDomContainer container_select_radio fill_select_radio])))
    by (vm_compute; left; reflexivity).
  split; [exact H|].
  destruct (fill_targets_question_container _ _ "30" H) as (d & E & _ & F).
  cbn in E. injection E as <-. exact F.
Defined.

Lemma submitApplication_dom_result_witness :
  ws_page world0 = true /\
  submitApplication_dom [(Ok false, Ok tt); (Ok true, Ok tt); (Exn "detached", Ok tt)]
    (Ok true) env_all_apply world0 =
  submitApplication_dom [(Ok false, Ok tt); (Ok true, Ok tt)]
    (Ok true) env_all_apply world0.
Proof.
  split; [reflexivity|].
  symmetry.
  exact (proj2 (submitApplication_dom_result
                  [(Ok false, Ok tt); (Ok true, Ok tt); (Exn "detached", Ok tt)]
                  (Ok true) env_all_apply world0 eq_refl) 1 [] eq_refl).
Defined.

(** With the browser set up, [checkLoginStatus] never throws: it returns
    what the page shows when navigation and the page check go through, and
    records it in [isLoggedIn]; otherwise it returns [false] and leaves
    [isLoggedIn] as it was. *)
Theorem checkLoginStatus_dom_result (goto : Outcome unit) (loggedIn : Outcome bool)
    (e : Env) (w : World) :
  ws_page w = true ->
  exists tr,
    checkLoginStatus_dom goto loggedIn e w =
    (Ok (match goto, loggedIn with Ok _, Ok b => b | _, _ => false end),
     mkWorld (ws_page w)
       (match goto, loggedIn with
        | Ok _, Ok b => set_isLoggedIn b (ws_state w)
        | _, _ => ws_state w
        end)
       (ws_profile w) (ws_isRunning w) (ws_shouldStop w)
       (ws_maxApplications w) (ws_delayBetween w) (ws_calls w)
       (ws_trace w ++ tr)).
Proof.
  intros P. destruct w as [pg st pr ir ss ma db cl tr0]. cbn in P. subst pg.
  unfold checkLoginStatus_dom, require_page, catch, bind, get, lift, ret,
    modify, log, emit, upd_trace, upd_state.
  destruct goto as [[]|m]; [destruct loggedIn as [b|m]|]; cbn.
  - exists [EvLog LInfo]. reflexivity.
  - exists [EvLog LError]. reflexivity.
  - exists [EvLog LError]. reflexivity.
Qed.

(** After a [close()] whose steps all go through, the page is gone and
    [isRunning] is false while [isLoggedIn] keeps its value; from then on
    the scraper's searchJobs, applyToJob, checkLoginStatus and
    submitApplication all throw "Browser not initialized" and change
    nothing. *)
Theorem close_then_calls_fail (e : Env) (w : World) :
  exists w',
    base_close (Ok tt) (Ok tt) (Ok tt) e w = (Ok tt, w') /\
    ws_page w' = false /\ s_isRunning (ws_state w') = false /\
    isLoggedIn (ws_state w') = isLoggedIn (ws_state w) /\
    (forall params e', naukri_searchJobs params e' w' =
                       (Exn browser_not_initialized, w')) /\
    (forall job e', naukri_applyToJob job e' w' =
                    (Exn browser_not_initialized, w')) /\
    (forall goto loggedIn e', checkLoginStatus_dom goto loggedIn e' w' =
                              (Exn browser_not_initialized, w')) /\
    (forall sels check e', submitApplication_dom sels check e' w' =
                           (Exn browser_not_initialized, w')).
Proof.
  destruct w as [pg st pr ir ss ma db cl tr0].
  eexists. split.
  { unfold base_close, bind, log, emit, modify, get, lift, ret.
    destruct pg; cbn; reflexivity. }
  cbn. split; [reflexivity|]. split; [reflexivity|]. split; [reflexivity|].
  repeat split; intros; reflexivity.
Qed.

(** The [/search] save loop keeps external ids unique in the jobs table:
    existing rows are left as they are, one row is appended per job whose
    external id was not there yet, [savedCount] counts those rows, and
    every job found ends up with a row. *)
Theorem save_jobs_unique (generateId : nat -> string) (rows jobs : list Job)
    (savedCount : nat) :
  NoDup (map externalId rows) ->
  let (rows', savedCount') := save_jobs generateId rows jobs savedCount in
  NoDup (map externalId rows') /\
  (exists added, rows' = rows ++ added /\
                 savedCount' = savedCount + List.length added) /\
  (forall job, In job jobs -> In (externalId job) (map externalId rows')).
Proof.
  revert rows savedCount.
  induction jobs as [|job rest IH]; intros rows savedCount U; cbn.
  - split; [exact U|]. split; [exists []; rewrite app_nil_r; split; [reflexivity|cbn; lia]|].
    intros _ [].
  - destruct (find (fun r => String.eqb (externalId r) (externalId job)) rows)
      as [r|] eqn:F.
    + specialize (IH rows savedCount U).
      destruct (save_jobs generateId rows rest savedCount) as [rows' c'].
      destruct IH as (U' & (added & -> & C) & All).
      split; [exact U'|]. split; [exists added; split; [reflexivity|exact C]|].
      intros j [<-|Hj]; [|exact (All j Hj)].
      apply find_some in F as [Fin Feq]. apply String.eqb_eq in Feq.
      rewrite <- Feq. apply in_map, in_or_app. left. exact Fin.
    + assert (U1 : NoDup (map externalId (rows ++ [job_row job (generateId savedCount)]))).
      { rewrite map_app. cbn. apply NoDup_app; [exact U|constructor; [intros []|constructor]|].
        intros x Hx [<-|[]]. apply in_map_iff in Hx as (r & Er & Hr).
        apply (find_none _ _ F) in Hr. cbn in Hr. rewrite Er in Hr.
        rewrite String.eqb_refl in Hr. discriminate. }
      specialize (IH _ (S savedCount) U1).
      destruct (save_jobs generateId _ rest (S savedCount)) as [rows' c'].
      destruct IH as (U' & (added & E' & C) & All).
      split; [exact U'|]. split.
      { exists (job_row job (generateId savedCount) :: added). split.
        - rewrite E', <- app_assoc. reflexivity.
        - cbn. lia. }
      intros j [<-|Hj]; [|exact (All j Hj)].
      rewrite E'. apply in_map_iff. exists (job_row job (generateId savedCount)).
      split; [reflexivity|]. apply in_or_app. left. apply in_or_app. right. left.
      reflexivity.
Qed.

(** The status the [/apply] and [/process-queue] routes write for a
    returned result is the bucket [processJobQueue] counts it in. *)
Theorem route_status_classify (result : ApplyResult) (r : QueueResult) :
  (route_status result = "applied" /\
     classify result r = mkQueueResult (S (applied r)) (failed r) (skipped r)) \/
  (route_status result = "skipped" /\
     classify result r = mkQueueResult (applied r) (failed r) (S (skipped r))) \/
  (route_status result = "failed" /\
     classify result r = mkQueueResult (applied r) (S (failed r)) (skipped r)).
Proof.
  unfold route_status, classify.
  destruct (success result); [left; split; reflexivity|].
  destruct (alreadyApplied result) as [[|]|]; cbn; [right; left|right; right..];
    split; reflexivity.
Qed.

Lemma find_app {A} (f : A -> bool) (l1 l2 : list A) :
  find f (l1 ++ l2) = match find f l1 with Some x => Some x | None => find f l2 end.
Proof.
  induction l1 as [|x l1 IH]; cbn; [reflexivity|].
  destruct (f x); [reflexivity|exact IH].
Qed.

Lemma take_digits_dash (l : list ascii) (r : string) :
  Forall (fun c => is_digit c = true) l ->
  take_digits (string_of_list_ascii l ++ String "-" r) = string_of_list_ascii l.
Proof.
  intros F. induction F as [|c l Hc F IH]; cbn.
  - reflexivity.
  - rewrite Hc. cbn in IH. rewrite IH. reflexivity.
Qed.

Lemma card_jobId_fallback (now : Z) (index : nat) (card : JobCard) :
  card_data_job_id card = None ->
  (forall h, card_first_href card = Some h -> jobid_match h = None) ->
  card_jobId now index card =
  ("naukri-" ++ z_to_dec now ++ "-" ++ nat_to_dec index)%string.
Proof.
  intros D H. unfold card_jobId. rewrite D.
  destruct (card_first_href card) as [h|]; [|reflexivity].
  cbn. rewrite (H h eq_refl). reflexivity.
Qed.


Lemma fallback_id_now (a b : Z) (i j : nat) :
  (0 <= a)%Z -> (0 <= b)%Z ->
  ("naukri-" ++ z_to_dec a ++ "-" ++ nat_to_dec i)%string =
  ("naukri-" ++ z_to_dec b ++ "-" ++ nat_to_dec j)%string -> a = b.
Proof.
  intros Ha Hb E. cbn [String.append] in E. injection E as E.
  unfold z_to_dec in E.
  destruct (a <? 0)%Z eqn:La; [apply Z.ltb_lt in La; lia|].
  destruct (b <? 0)%Z eqn:Lb; [apply Z.ltb_lt in Lb; lia|].
  unfold nat_to_dec at 1 3 in E.
  destruct (dec_digits_spec (S (Z.to_nat a)) (Z.to_nat a) ltac:(lia)) as (_ & Fa & Va).
  destruct (dec_digits_spec (S (Z.to_nat b)) (Z.to_nat b) ltac:(lia)) as (_ & Fb & Vb).
  apply (f_equal take_digits) in E.
  rewrite (take_digits_dash _ _ Fa), (take_digits_dash _ _ Fb) in E.
  apply (f_equal (fun s => digits_value (list_ascii_of_string s))) in E.
  rewrite !list_ascii_of_string_of_list_ascii, Va, Vb in E. lia.
Qed.

Lemma take_digits_head (t : string) (c : ascii) (r : string) :
  take_digits t = String c r -> is_digit c = true.
Proof.
  destruct t as [|a t]; cbn; [discriminate|].
  destruct (is_digit a) eqn:D; [|discriminate]. intros H. injection H as <- _. exact D.
Qed.

Lemma jobid_match_cons (a : ascii) (s : string) :
  jobid_match (String a s) =
  let here :=
    if String.prefix "jobid=" (String a s)
    then take_digits (substring 6 (String.length (String a s)) (String a s))
    else EmptyString in
  if negb (String.eqb here "") then Some here else jobid_match s.
Proof. reflexivity. Qed.

Lemma jobid_match_digit (s m : string) :
  jobid_match s = Some m -> exists c r, m = String c r /\ is_digit c = true.
Proof.
  induction s as [|a s IH]; intros H.
  - cbn in H. discriminate.
  - rewrite jobid_match_cons in H. cbv zeta in H.
    destruct (String.prefix "jobid=" (String a s)).
    + destruct (take_digits _) as [|c r] eqn:T; cbn in H.
      * apply IH. exact H.
      * injection H as <-. exists c, r. split; [reflexivity|].
        exact (take_digits_head _ _ _ T).
    + cbn in H. apply IH. exact H.
Qed.

Lemma card_jobId_not_fallback (now1 now2 : Z) (k i : nat) (card : JobCard) :
  (forall d, card_data_job_id card = Some d -> String.prefix "naukri-" d = false) ->
  (0 <= now1)%Z -> (0 <= now2)%Z -> now1 <> now2 ->
  card_jobId now1 k card <> ("naukri-" ++ z_to_dec now2 ++ "-" ++ nat_to_dec i)%string.
Proof.
  intros Hd P1 P2 Ne. unfold card_jobId.
  assert (Rest :
    match option_map jobid_match (card_first_href card) with
    | Some (Some m) => m
    | _ => ("naukri-" ++ z_to_dec now1 ++ "-" ++ nat_to_dec k)%string
    end <> ("naukri-" ++ z_to_dec now2 ++ "-" ++ nat_to_dec i)%string).
  { destruct (card_first_href card) as [h|]; cbn [option_map].
    - destruct (jobid_match h) as [m|] eqn:J.
      + apply jobid_match_digit in J as (c & r & -> & D).
        intros E. cbn [String.append] in E. injection E as Ec _. subst c.
        discriminate D.
      + intros E. apply fallback_id_now in E; [contradiction|assumption..].
    - intros E. apply fallback_id_now in E; [contradiction|assumption..]. }
  destruct (card_data_job_id card) as [d|] eqn:Cd; [|exact Rest].
  destruct (negb (String.eqb d "")); [|exact Rest].
  intros E. specialize (Hd d eq_refl). rewrite E, prefix_append in Hd. discriminate.
Qed.

Lemma save_jobs_rows (generateId : nat -> string) (jobs : list Job) :
  forall rows savedCount, exists added,
    fst (save_jobs generateId rows jobs savedCount) = rows ++ added /\
    Forall (fun r => In (externalId r) (map externalId jobs)) added.
Proof.
  induction jobs as [|job rest IH]; intros rows c; cbn.
  - exists []. rewrite app_nil_r. split; [reflexivity|constructor].
  - destruct (find _ rows).
    + destruct (IH rows c) as (added & E & F). exists added. split; [exact E|].
      eapply Forall_impl; [|exact F]. intros r H. right. exact H.
    + destruct (IH (rows ++ [job_row job (generateId c)]) (S c)) as (added & E & F).
      exists (job_row job (generateId c) :: added). split.
      * rewrite E, <- app_assoc. reflexivity.
      * constructor; [left; reflexivity|].
        eapply Forall_impl; [|exact F]. intros r H. right. exact H.
Qed.

Lemma extract_from_in (now : nat -> Z) (cards : list JobCard) :
  forall i j, In j (extract_from now i cards) ->
  exists k card, In card cards /\ j = card_to_job (now k) k card.
Proof.
  induction cards as [|card cards IH]; intros i j H; cbn in H; [contradiction|].
  destruct H as [<-|H].
  - exists i, card. split; [left; reflexivity|reflexivity].
  - destruct (IH _ _ H) as (k & c & Hc & ->). exists k, c. split; [right; exact Hc|reflexivity].
Qed.

Lemma extract_from_nth (now : nat -> Z) (cards : list JobCard) :
  forall i k, nth_error (extract_from now i cards) k =
  option_map (card_to_job (now (i + k)) (i + k)) (nth_error cards k).
Proof.
  induction cards as [|card cards IH]; intros i k; [destruct k; reflexivity|].
  destruct k as [|k]; cbn.
  - rewrite Nat.add_0_r. reflexivity.
  - rewrite IH. replace (S i + k) with (i + S k) by lia. reflexivity.
Qed.

Lemma find_none_all {A} (f : A -> bool) (l : list A) :
  (forall x, In x l -> f x = false) -> find f l = None.
Proof.
  induction l as [|x l IH]; intros H; cbn; [reflexivity|].
  rewrite (H x (or_introl eq_refl)). apply IH. intros y Hy. apply H. right. exact Hy.
Qed.

(** A card with no [data-job-id] and no [jobid=] in its first link gets the
    id ["naukri-<Date.now()>-<index>"].  A search made at other
    milliseconds, whose cards carry no [data-job-id] starting with
    ["naukri-"], saves no row with that id: looking the card's job up in the
    table after that search finds what it found before it, so the [/search]
    route saves the card again whenever the table had no row for it. *)
Theorem fallback_card_saved_again (generateId : nat -> string) (rows : list Job)
    (savedCount : nat) (cards1 cards2 : list JobCard) (now1 now2 : nat -> Z)
    (i2 : nat) (card : JobCard) :
  nth_error cards2 i2 = Some card ->
  card_data_job_id card = None ->
  (forall h, card_first_href card = Some h -> jobid_match h = None) ->
  (forall card' d, In card' cards1 -> card_data_job_id card' = Some d ->
     String.prefix "naukri-" d = false) ->
  (forall k, (0 <= now1 k)%Z) -> (0 <= now2 i2)%Z -> (forall k, now1 k <> now2 i2) ->
  let job := card_to_job (now2 i2) i2 card in
  nth_error (extractJobListings_dom now2 cards2) i2 = Some job /\
  find (fun r => String.eqb (externalId r) (externalId job))
    (fst (save_jobs generateId rows (extractJobListings_dom now1 cards1) savedCount)) =
  find (fun r => String.eqb (externalId r) (externalId job)) rows.
Proof.
  intros N2 D H Hd P1 P2 Ne job. split.
  { unfold extractJobListings_dom. rewrite extract_from_nth, N2. reflexivity. }
  destruct (save_jobs_rows generateId (extractJobListings_dom now1 cards1) rows savedCount)
    as (added & -> & F).
  rewrite find_app. destruct (find _ rows); [reflexivity|].
  apply find_none_all. intros r Hr.
  rewrite Forall_forall in F. apply F in Hr.
  apply in_map_iff in Hr as (j1 & Ej & Hj1).
  unfold extractJobListings_dom in Hj1.
  apply extract_from_in in Hj1 as (k & card' & Hc' & ->).
  rewrite <- Ej. apply String.eqb_neq. unfold job, card_to_job. cbn [externalId].
  rewrite (card_jobId_fallback (now2 i2) i2 card D H).
  apply card_jobId_not_fallback; [intros d; apply (Hd card' d Hc') | apply P1 | exact P2 | apply Ne].
Qed.

Lemma checkLoginStatus_dom_result_witness :
  ws_page world0 = true /\
  exists tr,
    checkLoginStatus_dom (Exn "net::ERR_INTERNET_DISCONNECTED") (Ok false)
      env_all_apply world0 =
    (Ok false,
     mkWorld (ws_page world0) (ws_state world0) (ws_profile world0)
       (ws_isRunning world0) (ws_shouldStop world0) (ws_maxApplications world0)
       (ws_delayBetween world0) (ws_calls world0) (ws_trace world0 ++ tr)).
Proof.
  split; [reflexivity|].
  exact (checkLoginStatus_dom_result (Exn "net::ERR_INTERNET_DISCONNECTED") (Ok false)
           env_all_apply world0 eq_refl).
Defined.

Lemma save_jobs_unique_witness :
  NoDup (map externalId [job1]) /\
  NoDup (map externalId (fst (save_jobs (fun _ => "generated") [job1]
                                [job1; job2; job2] 0))).
Proof.
  assert (U : NoDup (map externalId [job1]))
    by (constructor; [intros []|constructor]).
  split; [exact U|].
  pose proof (save_jobs_unique (fun _ => "generated") [job1] [job1; job2; job2] 0 U)
    as T.
  destruct (save_jobs (fun _ => "generated") [job1] [job1; job2; job2] 0) as [r c].
  exact (proj1 T).
Defined.

Definition card_without_id : JobCard :=
  mkCard None None (Some "React Developer") (Some "Acme") None None.

Lemma fallback_card_saved_again_witness :
  find (fun r => String.eqb (externalId r)
                   (externalId (card_to_job 6%Z 0 card_without_id)))
    (fst (save_jobs (fun _ => "generated") []
            (extractJobListings_dom (fun _ => 5%Z) [card_example; card_without_id]) 0))
  = None.
Proof.
  destruct (fallback_card_saved_again (fun _ => "generated") [] 0
              [card_example; card_without_id] [card_without_id]
              (fun _ => 5%Z) (fun _ => 6%Z) 0 card_without_id eq_refl eq_refl
              (fun h Hh => ltac:(discriminate Hh))
              (fun c d Hc Hd => ltac:(destruct Hc as [<-|[<-|[]]]; discriminate Hd))
              (fun k => ltac:(cbv beta; lia)) ltac:(cbv beta; lia)
              (fun k => ltac:(cbv beta; lia))) as [_ F].
  exact F.
Defined.
